(** * pyani_graphics: heatmap rendering for ANI analyses

    A shallow embedding of [pyani/pyani_graphics.py] and the properties
    of its two renderers, [heatmap_seaborn] and [heatmap_mpl].

    Conventions of the embedding.
    - Python floats are idealised as exact rationals ([Q]); Python ints
      that take part in float arithmetic are injected into [Q]. What a
      double decides in its last place (a rounding tie, a logarithm just
      below a power of ten, a sum that is not representable) is thereby
      out of reach, and the statements about the colour-bar ticks are
      kept to what does not hinge on it.
    - Python dictionaries are insertion-ordered association lists with
      unique keys; the dictionaries handed in by the caller live in a
      store and are addressed by reference, so that a write made by a
      renderer is visible to the caller (and through every alias).
    - Exceptions are values: a computation yields [Ok v] or [Raise e]
      together with the world it leaves behind.
    - The plotting and clustering libraries (matplotlib, seaborn, scipy)
      and the constants of [pyani_config] are parameters, gathered in
      the class [ThirdParty]. *)

From Stdlib Require Import ZArith QArith Qround Lia Lqa.
From stdpp Require Import base option list gmap strings sorting pretty.

Local Open Scope Q_scope.

(** ** Python numerics *)

Module Py.

(** [max(a, b)]: the first argument is kept unless the second is
    strictly greater. *)
Definition max2 (a b : Q) : Q :=
  match Qcompare a b with Lt => b | _ => a end.

(** [min(a, b)]: the first argument is kept unless the second is
    strictly smaller. *)
Definition min2 (a b : Q) : Q :=
  match Qcompare b a with Lt => b | _ => a end.

(** [min] and [max] of a non-empty sequence, [None] on an empty one
    (numpy raises [ValueError] there). *)
Definition min_list (l : list Q) : option Q :=
  match l with
  | [] => None
  | x :: l' => Some (foldl min2 x l')
  end.

Definition max_list (l : list Q) : option Q :=
  match l with
  | [] => None
  | x :: l' => Some (foldl max2 x l')
  end.

(** [int(x)]: truncation towards zero. *)
Definition int (x : Q) : Z := Z.quot (Qnum x) (Zpos (Qden x)).

(** Rounding to the nearest integer, ties to the even neighbour, as
    Python 3 rounds. *)
Definition round_half_even (x : Q) : Z :=
  let f := Qfloor x in
  match Qcompare (x - inject_Z f) (1 # 2) with
  | Lt => f
  | Gt => (f + 1)%Z
  | Eq => if Z.even f then f else (f + 1)%Z
  end.

(** [round(x, ndigits)]: the nearest multiple of [10 ^ (- ndigits)]. *)
Definition round (x : Q) (ndigits : Z) : Q :=
  let step := Qpower 10 (- ndigits) in
  inject_Z (round_half_even (x / step)) * step.

(** Number of decimal digits of a positive integer, minus one. *)
Fixpoint ilog10_aux (fuel : nat) (n : Z) : Z :=
  match fuel with
  | O => 0%Z
  | S fuel' =>
      if (n <? 10)%Z then 0%Z else (1 + ilog10_aux fuel' (n / 10))%Z
  end.

Definition ilog10 (n : Z) : Z := ilog10_aux (S (Z.to_nat (Z.log2 n))) n.

(** [floor(log10(x))] for a rational [x]; [None] stands for the
    [ValueError] that [math.log10] raises outside its domain. This is
    the logarithm of the real number: [math.log10] of a double may reach
    the next integer just below a power of ten, so that only the domain
    of the function is relied on below. *)
Definition floor_log10 (x : Q) : option Z :=
  match Qcompare 0 x with
  | Lt =>
      let a := Qnum x in
      let b := Zpos (Qden x) in
      let k := (ilog10 a - ilog10 b)%Z in
      let below :=
        if (0 <=? k)%Z then (a <? 10 ^ k * b)%Z
        else (a * 10 ^ (- k) <? b)%Z in
      Some (if below then (k - 1)%Z else k)
  | _ => None
  end.

(** [decade x l] says that [10 ^ l <= x < 10 ^ (l + 1)], written on
    the numerator and the denominator of [x]. *)
Definition decade (x : Q) (l : Z) : Prop :=
  let a := Qnum x in
  let b := Zpos (Qden x) in
  ((0 <= l → 10 ^ l * b <= a < 10 ^ (l + 1) * b) ∧
   (l < 0 → b <= a * 10 ^ (- l) ∧ a * 10 ^ (- l - 1) < b))%Z.

End Py.

(** ** Exceptions and results *)

Inductive exn : Set :=
| ValueError
| KeyError
| IndexError
| AttributeError.

Inductive result (A : Type) : Type :=
| Ok (a : A)
| Raise (e : exn).

Arguments Ok {A} a.
Arguments Raise {A} e.

Definition of_option {A} (e : exn) (o : option A) : result A :=
  match o with
  | Some a => Ok a
  | None => Raise e
  end.

(** ** Dictionaries *)

Module PyDict.

Definition t (V : Type) : Type := list (string * V).

Section Ops.
Context {V : Type}.

(** [d.get(k)] *)
Fixpoint get (d : t V) (k : string) : option V :=
  match d with
  | [] => None
  | (k', v) :: d' => if decide (k' = k) then Some v else get d' k
  end.

(** [d.get(k, dflt)] *)
Definition get_default (d : t V) (k : string) (dflt : V) : V :=
  default dflt (get d k).

(** [k in d] *)
Definition contains (d : t V) (k : string) : bool :=
  match get d k with Some _ => true | None => false end.

(** [d[k] = v]: an existing key keeps its place, a new one goes last. *)
Fixpoint set (d : t V) (k : string) (v : V) : t V :=
  match d with
  | [] => [(k, v)]
  | (k', v') :: d' =>
      if decide (k' = k) then (k', v) :: d' else (k', v') :: set d' k v
  end.

Definition keys (d : t V) : list string := d.*1.
Definition values (d : t V) : list V := d.*2.
Definition items (d : t V) : list (string * V) := d.

(** [{k: v for (k, v) in kvs}] *)
Definition of_items (kvs : list (string * V)) : t V :=
  foldl (λ d kv, set d kv.1 kv.2) [] kvs.

(** [bool(d)] *)
Definition truthy (d : t V) : bool :=
  match d with [] => false | _ => true end.

Definition wf (d : t V) : Prop := NoDup (keys d).
End Ops.

End PyDict.

(** ** Data frames *)

Record DataFrame : Type := {
  df_index : list string;
  df_columns : list string;
  df_values : list (list Q)
}.

Module Frame.

(** [dfr.shape[0]] *)
Definition shape0 (f : DataFrame) : nat := length (df_index f).

(** Every row label has a row, every row has one cell per column. *)
Definition wf (f : DataFrame) : Prop :=
  length (df_values f) = length (df_index f) ∧
  Forall (λ r : list Q, length r = length (df_columns f)) (df_values f).

(** [dfr.values.min()] and [dfr.values.max()] over all cells. *)
Definition values_min (f : DataFrame) : result Q :=
  of_option ValueError (Py.min_list (concat (df_values f))).

Definition values_max (f : DataFrame) : result Q :=
  of_option ValueError (Py.max_list (concat (df_values f))).

(** Positional selection [xs[positions]]. *)
Definition take {A} (xs : list A) (positions : list nat) : result (list A) :=
  of_option IndexError (mapM (λ i, xs !! i) positions).

(** [dfr.index[leaves]] *)
Definition index_at (f : DataFrame) (leaves : list nat) : result (list string) :=
  take (df_index f) leaves.

(** [dfr.ix[rows, cols]] with integer positions on a string-labelled
    frame. *)
Definition ix (f : DataFrame) (rows cols : list nat) : result DataFrame :=
  of_option IndexError
    (idx ← mapM (λ i, df_index f !! i) rows;
     col ← mapM (λ j, df_columns f !! j) cols;
     val ← mapM (λ i, r ← df_values f !! i; mapM (λ j, r !! j) cols) rows;
     Some {| df_index := idx; df_columns := col; df_values := val |}).

(** [dfr.T] *)
Definition transpose (f : DataFrame) : DataFrame :=
  {| df_index := df_columns f;
     df_columns := df_index f;
     df_values :=
       (λ j, (λ r : list Q, default 0 (r !! j)) <$> df_values f)
         <$> seq 0 (length (df_columns f)) |}.

End Frame.

(** ** The world: caller-owned objects and plotting-library globals *)

Definition loc : Set := nat.

Record World : Type := {
  (** data frames owned by the caller, by reference *)
  frames : gmap loc DataFrame;
  (** dictionaries owned by the caller, by reference *)
  dicts : gmap loc (PyDict.t string);
  (** matplotlib's registry of colour maps, by name *)
  cmap_registry : gset string;
  (** seaborn's plotting context: its name and font scale *)
  plotting_context : string * Q;
  (** paths written by [savefig], most recent first *)
  saved : list string
}.

(** Computations that read and write the world and may raise. *)
Definition M (A : Type) : Type := World → result A * World.

#[global] Instance M_ret : MRet M := λ A a w, (Ok a, w).

#[global] Instance M_bind : MBind M := λ A B k m w,
  match m w with
  | (Ok a, w') => k a w'
  | (Raise e, w') => (Raise e, w')
  end.

Definition lift {A} (r : result A) : M A := λ w, (r, w).

#[global] Instance exn_eq_dec : EqDecision exn.
Proof. solve_decision. Defined.

(** [try: body except e: handler] *)
Definition try_except {A} (body : M A) (e : exn) (handler : M A) : M A :=
  λ w,
    match body w with
    | (Raise e', w') => if decide (e' = e) then handler w' else (Raise e', w')
    | r => r
    end.

(** [for x in xs: body] *)
Fixpoint for_ {A} (xs : list A) (body : A → M unit) : M unit :=
  match xs with
  | [] => mret ()
  | x :: xs' => _ ← body x; for_ xs' body
  end.

(** [out = []; for x in xs: out.append(body)] *)
Fixpoint for_append {A B} (xs : list A) (body : A → M B) : M (list B) :=
  match xs with
  | [] => mret []
  | x :: xs' => y ← body x; ys ← for_append xs' body; mret (y :: ys)
  end.

Definition read_frame (r : loc) : M DataFrame := λ w,
  (of_option AttributeError (frames w !! r), w).

Definition read_dict (r : loc) : M (PyDict.t string) := λ w,
  (of_option AttributeError (dicts w !! r), w).

(** [d[k]] on a dictionary of the store *)
Definition dict_getitem (r : loc) (k : string) : M string :=
  d ← read_dict r; lift (of_option KeyError (PyDict.get d k)).

(** [k in d] on a dictionary of the store *)
Definition dict_contains (r : loc) (k : string) : M bool :=
  d ← read_dict r; mret (PyDict.contains d k).

(** [d[k] = v] on a dictionary of the store *)
Definition dict_setitem (r : loc) (k v : string) : M unit := λ w,
  match dicts w !! r with
  | Some d =>
      (Ok (),
       {| frames := frames w;
          dicts := <[r := PyDict.set d k v]> (dicts w);
          cmap_registry := cmap_registry w;
          plotting_context := plotting_context w;
          saved := saved w |})
  | None => (Raise AttributeError, w)
  end.

(** [plt.register_cmap(cmap=c)], the colour map standing for its name *)
Definition register_cmap (name : string) : M unit := λ w,
  (Ok (),
   {| frames := frames w;
      dicts := dicts w;
      cmap_registry := {[ name ]} ∪ cmap_registry w;
      plotting_context := plotting_context w;
      saved := saved w |}).

(** [sns.set_context(context, font_scale=scale)] *)
Definition set_context (context : string) (font_scale : Q) : M unit := λ w,
  (Ok (),
   {| frames := frames w;
      dicts := dicts w;
      cmap_registry := cmap_registry w;
      plotting_context := (context, font_scale);
      saved := saved w |}).

(** [fig.savefig(path)] *)
Definition savefig (path : string) : M unit := λ w,
  (Ok (),
   {| frames := frames w;
      dicts := dicts w;
      cmap_registry := cmap_registry w;
      plotting_context := plotting_context w;
      saved := path :: saved w |}).

(** Truthiness of an optional string argument: [None] and the empty
    string are false. *)
Definition str_truthy (s : option string) : option string :=
  match s with
  | Some EmptyString => None
  | _ => s
  end.

(** ** Third-party libraries and configuration *)

Definition Colour : Type := Q * Q * Q.

(** The keyword arguments handed to [sns.clustermap]. *)
Record ClusterMapArgs : Type := {
  cm_data : DataFrame;
  cm_cmap : string;
  cm_vmin : option Q;
  cm_vmax : option Q;
  cm_col_colors : option (list (option Colour));
  cm_row_colors : option (list (option Colour));
  cm_figsize : Q * Q;
  cm_linewidths : Q;
  cm_xticklabels : list string;
  cm_yticklabels : list string;
  cm_annot : bool
}.

Class ThirdParty : Type := {
  (** scipy.spatial.distance *)
  Condensed : Type;
  Square : Type;
  pdist : list (list Q) → result Condensed;
  squareform : Condensed → Square;
  (** scipy.cluster.hierarchy; [dendrogram] is given the orientation and
      yields the ['leaves'] entry of its result *)
  LinkageMatrix : Type;
  linkage : Square → string → result LinkageMatrix;
  dendrogram : LinkageMatrix → string → result (list nat);
  (** seaborn; [cubehelix_palette n] stands for the call with
      [light=.9, dark=.1, reverse=True, start=1, rot=-2] *)
  ClusterGrid : Type;
  cubehelix_palette : nat → list Colour;
  clustermap : ClusterMapArgs → result ClusterGrid;
  (** matplotlib: the colour map [get_cmap(None)] falls back to *)
  default_cmap : string;
  (** pyani_config: the three colour maps registered on import, by
      name, and the name of the colour map of the class strips *)
  CMAP_SPBND_BURD : string;
  CMAP_HADAMARD_BURD : string;
  CMAP_BURD : string;
  MPL_CBAR : string
}.

(** [plt.get_cmap(name)] *)
Definition get_cmap `{ThirdParty} (name : option string) : M string := λ w,
  match name with
  | None => (Ok default_cmap, w)
  | Some n =>
      (if decide (n ∈ cmap_registry w) then Ok n else Raise ValueError, w)
  end.

(** ** The renderers *)

(** The arguments shared by both renderers. *)
Record Args : Type := {
  dfr : loc;
  outfilename : option string;
  title : option string;
  cmap : option string;
  vmin : option Q;
  vmax : option Q;
  labels : option loc;
  classes : option loc
}.

(** What [heatmap_seaborn] hands back: the grid, the call that made it
    and the label put on its colour-bar axis. *)
Record SeabornFigure `{ThirdParty} : Type := {
  sf_grid : ClusterGrid;
  sf_call : ClusterMapArgs;
  sf_ylabel : option string
}.

(** What [heatmap_mpl] draws. *)
Record MplFigure : Type := {
  mf_figsize : Q * Q;
  mf_heatmap : DataFrame;
  mf_cmap : string;
  mf_vmin : Q;
  mf_vmax : Q;
  mf_col_cb : option (list nat);
  mf_row_cb : option (list nat);
  mf_xticklabels : list string;
  mf_yticklabels : list string;
  mf_cbticks : list Q;
  mf_cbar_label : option string
}.

Section Renderers.
Context `{ThirdParty}.

(** Module import: the three colour maps are registered. *)
Definition module_load : M unit :=
  _ ← register_cmap CMAP_SPBND_BURD;
  _ ← register_cmap CMAP_HADAMARD_BURD;
  register_cmap CMAP_BURD.

(** *** [heatmap_seaborn] *)

(** Figure layout size (lines 73-75). *)
Definition maxfigsize : Q := 120.

Definition calcfigsize (rows : nat) : Q := inject_Z (Z.of_nat rows) * 1.1.

Definition seaborn_figsize (rows : nat) : Q :=
  Py.min2 (Py.max2 8 (calcfigsize rows)) maxfigsize.

(** Font size is modified when the maximum size is hit (lines 76-78). *)
Definition seaborn_font_scale (rows : nat) : M unit :=
  if Qeq_bool (seaborn_figsize rows) maxfigsize
  then set_context "notebook" (maxfigsize / calcfigsize rows)
  else mret ().

(** [sorted(list(set(classes.values())))] *)
Definition sorted_levels (cd : PyDict.t string) : list string :=
  merge_sort String.le (elements (list_to_set (PyDict.values cd) : gset string)).

(** [{lvl: pal for (lvl, pal) in zip(levels, pal)}] *)
Definition palette_dict (levels : list string) : PyDict.t Colour :=
  PyDict.of_items (zip levels (cubehelix_palette (length levels))).

(** [{cls: paldict[lvl] for (cls, lvl) in list(classes.items())}],
    the dictionary built so far in [acc] *)
Fixpoint level_palette (paldict : PyDict.t Colour)
    (items : list (string * string)) (acc : PyDict.t Colour)
    : result (PyDict.t Colour) :=
  match items with
  | [] => Ok acc
  | (cls, lvl) :: items' =>
      match PyDict.get paldict lvl with
      | Some c => level_palette paldict items' (PyDict.set acc cls c)
      | None => Raise KeyError
      end
  end.

(** The class colour bar [col_cb] (lines 87-100): one optional colour
    per row label, [None] where the series holds NaN. *)
Definition seaborn_class_colours (f : DataFrame) (classes : option loc)
    : M (option (list (option Colour))) :=
  match classes with
  | Some c =>
      cd ← read_dict c;
      let levels := sorted_levels cd in
      let paldict := palette_dict levels in
      lvl_pal ← lift (level_palette paldict (PyDict.items cd) []);
      mret (Some ((λ i, PyDict.get lvl_pal i) <$> df_index f))
  | None => mret None
  end.

(** The tick labels [newlabels] (lines 104-107). *)
Definition seaborn_labels (f : DataFrame) (labels : option loc)
    : M (list string) :=
  match labels with
  | Some l =>
      ld ← read_dict l;
      mret ((λ i, PyDict.get_default ld i i) <$> df_index f)
  | None => mret (df_index f)
  end.

Definition heatmap_seaborn (a : Args) : M SeabornFigure :=
  cmap ← get_cmap (cmap a);
  f ← read_frame (dfr a);
  let figsize := seaborn_figsize (Frame.shape0 f) in
  _ ← seaborn_font_scale (Frame.shape0 f);
  col_cb ← seaborn_class_colours f (classes a);
  newlabels ← seaborn_labels f (labels a);
  let call :=
    {| cm_data := f; cm_cmap := cmap;
       cm_vmin := vmin a; cm_vmax := vmax a;
       cm_col_colors := col_cb; cm_row_colors := col_cb;
       cm_figsize := (figsize, figsize);
       cm_linewidths := 0.25;
       cm_xticklabels := newlabels; cm_yticklabels := newlabels;
       cm_annot := true |} in
  grid ← lift (clustermap call);
  _ ← from_option savefig (mret ()) (str_truthy (outfilename a));
  mret {| sf_grid := grid; sf_call := call; sf_ylabel := title a |}.

(** *** [heatmap_mpl] *)

(** The bounds of the colour scale (lines 151-154). *)
Definition effective_vmin (a : Args) (f : DataFrame) : result Q :=
  match vmin a with
  | None => Frame.values_min f
  | Some v => Ok v
  end.

Definition effective_vmax (a : Args) (f : DataFrame) : result Q :=
  match vmax a with
  | None => Frame.values_max f
  | Some v => Ok v
  end.

(** The width of the colour scale and the five quarter points
    (lines 156-157). *)
Definition scale_width (vmin vmax : Q) : Q := Py.max2 (vmax - vmin) 0.01.

Definition quarter_points (vmin vmax : Q) : list Q :=
  (λ e, vmin + e * scale_width vmin vmax) <$> [0; 0.25; 0.5; 0.75; 1].

(** The colour-bar ticks (lines 156-160), in exact arithmetic: the
    values the doubles give can differ where a quarter point falls on a
    rounding tie or the maximum lies next to a power of ten. *)
Definition colourbar_ticks (vmin vmax : Q) : result (list Q) :=
  let cbticks := quarter_points vmin vmax in
  match Qcompare vmax 10 with
  | Gt =>
      match Py.floor_log10 vmax with
      | Some l =>
          let exponent := (l - 1)%Z in
          Ok ((λ e, inject_Z (Py.int (Py.round e (- exponent)))) <$> cbticks)
      | None => Raise ValueError
      end
  | _ => Ok cbticks
  end.

(** Figure size (line 167). *)
Definition mpl_figsize (dfsize : nat) : Q :=
  Py.max2 8 (inject_Z (Z.of_nat dfsize) * 0.175).

(** [sch.dendrogram(sch.linkage(distance.squareform(distance.pdist(x)),
    method='complete'), orientation=...)['leaves']] *)
Definition cluster_leaves (x : list (list Q)) (orientation : string)
    : result (list nat) :=
  match pdist x with
  | Ok d =>
      match linkage (squareform d) "complete" with
      | Ok z => dendrogram z orientation
      | Raise e => Raise e
      end
  | Raise e => Raise e
  end.

(** The body of the loop that extends [classes] (lines 220-221):
    [if name not in classes: classes[name] = name] *)
Definition extend_classes (c : loc) (name : string) : M unit :=
  dict_contains c name ≫= λ b : bool,
    if b then mret () else dict_setitem c name name.

(** [{cls: idx for (idx, cls) in enumerate(classes.values())}] *)
Definition class_dict (cd : PyDict.t string) : PyDict.t nat :=
  PyDict.of_items (imap (λ idx cls, (cls, idx)) (PyDict.values cd)).

(** One cell of a class strip (lines 228-231):
    [try: classdict[classes[name]] except KeyError: classdict[name]] *)
Definition strip_cell (c : loc) (classdict : PyDict.t nat) (name : string)
    : M nat :=
  try_except
    (cls ← dict_getitem c name;
     lift (of_option KeyError (PyDict.get classdict cls)))
    KeyError
    (lift (of_option KeyError (PyDict.get classdict name))).

(** The class colour bars (lines 217-256): the column strip and the
    row strip, as the numbers handed to [imshow]. *)
Definition mpl_class_strips (f : DataFrame) (rowleaves colleaves : list nat)
    (classes : option loc) : M (option (list nat) * option (list nat)) :=
  match classes with
  | Some c =>
      colnames ← lift (Frame.index_at f colleaves);
      _ ← for_ colnames (extend_classes c);
      cd ← read_dict c;
      let classdict := class_dict cd in
      colnames ← lift (Frame.index_at f colleaves);
      col_cb ← for_append colnames (strip_cell c classdict);
      rownames ← lift (Frame.index_at f rowleaves);
      row_cb ← for_append rownames (strip_cell c classdict);
      _ ← get_cmap (Some MPL_CBAR);
      _ ← get_cmap (Some MPL_CBAR);
      mret (Some col_cb, Some row_cb)
  | None => mret (None, None)
  end.

(** The heatmap labels (lines 259-264): row labels, column labels. *)
Definition mpl_ticklabels (f : DataFrame) (rowleaves colleaves : list nat)
    (labels : option loc) : M (list string * list string) :=
  rowticklabels ← lift (Frame.index_at f rowleaves);
  colticklabels ← lift (Frame.index_at f colleaves);
  match labels with
  | Some l =>
      ld ← read_dict l;
      if PyDict.truthy ld
      then mret ((λ lab, PyDict.get_default ld lab lab) <$> rowticklabels,
                 (λ lab, PyDict.get_default ld lab lab) <$> colticklabels)
      else mret (rowticklabels, colticklabels)
  | None => mret (rowticklabels, colticklabels)
  end.

Definition heatmap_mpl (a : Args) : M MplFigure :=
  f ← read_frame (dfr a);
  let dfsize := Frame.shape0 f in
  vmin ← lift (effective_vmin a f);
  vmax ← lift (effective_vmax a f);
  cbticks ← lift (colourbar_ticks vmin vmax);
  cmap ← get_cmap (cmap a);
  let figsize := mpl_figsize dfsize in
  colleaves ← lift (cluster_leaves (df_values (Frame.transpose f)) "top");
  rowleaves ← lift (cluster_leaves (df_values f) "left");
  heat ← lift (Frame.ix f rowleaves colleaves);
  strips ← mpl_class_strips f rowleaves colleaves (classes a);
  ticklabels ← mpl_ticklabels f rowleaves colleaves (labels a);
  _ ← from_option savefig (mret ()) (str_truthy (outfilename a));
  mret {| mf_figsize := (figsize, figsize);
          mf_heatmap := heat;
          mf_cmap := cmap;
          mf_vmin := vmin; mf_vmax := vmax;
          mf_col_cb := strips.1; mf_row_cb := strips.2;
          mf_xticklabels := ticklabels.2;
          mf_yticklabels := ticklabels.1;
          mf_cbticks := cbticks;
          mf_cbar_label := str_truthy (title a) |}.

End Renderers.

(** ** Reference definitions used in the statements *)

(** The label of an identifier as the specification words it: the raw
    identifier without a label map or without an entry in it, the mapped
    display string otherwise. *)
Definition spec_tick_label (labels : option (PyDict.t string)) (i : string)
    : string :=
  match labels with
  | None => i
  | Some m =>
      match PyDict.get m i with
      | Some s => s
      | None => i
      end
  end.

(** What the loop of [heatmap_mpl] leaves in [classes] after it has seen
    the identifiers [names]: each one that had no class is its own. *)
Definition extended (d : PyDict.t string) (names : list string)
    : PyDict.t string :=
  foldl (λ d name, if PyDict.contains d name then d else PyDict.set d name name)
        d names.

(** The number a class strip holds for [name], given the class map [d]
    and the numbering [classdict] of the classes: the number of its
    class, or else the number the name itself may have; [None] when
    both lookups fail. *)
Definition strip_value (d : PyDict.t string) (classdict : PyDict.t nat)
    (name : string) : option nat :=
  match PyDict.get d name ≫= PyDict.get classdict with
  | Some v => Some v
  | None => PyDict.get classdict name
  end.

(** The cell of a frame in row [i], column [j]. *)
Definition cell (f : DataFrame) (i j : nat) : option Q :=
  r ← df_values f !! i; r !! j.

(** The label map a call reads: the dictionary its [labels] argument
    refers to, if any. *)
Definition label_map (a : Args) (w : World) : option (PyDict.t string) :=
  l ← labels a; dicts w !! l.

(** [leaves] lists every position in [0, n) once, in some order. *)
Definition is_order (n : nat) (leaves : list nat) : Prop :=
  leaves ≡ₚ seq 0 n.

(** ** A concrete setting

    Stand-ins for the libraries, small enough to run: observations are
    counted, at least two are needed to cluster, and the leaves come
    out in reverse order. *)

Module Demo.

Definition libs : ThirdParty := {|
  Condensed := nat;
  Square := nat;
  LinkageMatrix := nat;
  ClusterGrid := unit;
  pdist x := Ok (length x);
  squareform n := n;
  linkage n _ := if decide (n ≤ 1)%nat then Raise ValueError else Ok n;
  dendrogram n _ := Ok (reverse (seq 0 n));
  cubehelix_palette n := (λ i, (inject_Z (Z.of_nat i), 0, 0)) <$> seq 0 n;
  clustermap _ := Ok ();
  default_cmap := "viridis";
  CMAP_SPBND_BURD := "spbnd_BuRd";
  CMAP_HADAMARD_BURD := "hadamard_BuRd";
  CMAP_BURD := "BuRd";
  MPL_CBAR := "Spectral"
|}.

(** Three genomes. *)
Definition frame : DataFrame := {|
  df_index := ["a"; "b"; "c"];
  df_columns := ["a"; "b"; "c"];
  df_values := [[1; 0.9; 0.8]; [0.9; 1; 0.7]; [0.8; 0.7; 1]]
|}.

(** [n] genomes named [0], [1], ...: identity [1] on the diagonal,
    [0.5] elsewhere. *)
Definition square_frame (n : nat) : DataFrame := {|
  df_index := pretty <$> seq 0 n;
  df_columns := pretty <$> seq 0 n;
  df_values :=
    (λ i, (λ j, if decide (i = j) then 1 else 0.5) <$> seq 0 n) <$> seq 0 n
|}.

(** Frame 0 is [frame]; dictionary 1 is a label map, dictionary 2 a
    class map that knows two of the three genomes. *)
Definition world : World := {|
  frames := {[ 0%nat := frame ]};
  dicts := {[ 1%nat := [("a", "Genome A")];
              2%nat := [("b", "x"); ("a", "y")] ]};
  cmap_registry := {[ "viridis"; "Spectral" ]};
  plotting_context := ("notebook", 1);
  saved := []
|}.

Definition args : Args := {|
  dfr := 0%nat;
  outfilename := Some "out.png";
  title := Some "ANI";
  cmap := None;
  vmin := None;
  vmax := None;
  labels := Some 1%nat;
  classes := Some 2%nat
|}.

(** The same call with the class map doing duty as the label map. *)
Definition alias_args : Args := {|
  dfr := 0%nat;
  outfilename := None;
  title := None;
  cmap := None;
  vmin := None;
  vmax := None;
  labels := Some 2%nat;
  classes := Some 2%nat
|}.


(** The same call with both bounds of the colour scale given. *)
Definition flat_args : Args := {|
  dfr := 0%nat;
  outfilename := None;
  title := None;
  cmap := None;
  vmin := Some 50;
  vmax := Some 50;
  labels := None;
  classes := None
|}.

(** A world whose frame 0 has 110 rows, and a call on it with every
    optional argument left out. *)
Definition big_world : World := {|
  frames := {[ 0%nat := square_frame 110 ]};
  dicts := ∅;
  cmap_registry := {[ "viridis"; "Spectral" ]};
  plotting_context := ("notebook", 1);
  saved := []
|}.

Definition big_args : Args := {|
  dfr := 0%nat;
  outfilename := None;
  title := None;
  cmap := None;
  vmin := None;
  vmax := None;
  labels := None;
  classes := None
|}.

End Demo.

(** ** What a computation leaves of the world *)

(** [stable R m]: whatever [m] returns or raises, the world it leaves is
    related by [R] to the world it started in. *)
Definition stable (R : relation World) {A} (m : M A) : Prop :=
  ∀ w, R w (m w).2.

(** The component [proj] of the world is the same afterwards. *)
Definition unchanged {X} (proj : World → X) : relation World :=
  λ w w', proj w' = proj w.

(** The whole world is the same afterwards. *)
Definition same : relation World := λ w w', w' = w.

(** Frames are kept, every dictionary but [c] is kept, and the
    dictionary [c] is extended by identifiers that are their own class. *)
Definition class_extension (c : option loc) : relation World := λ w w',
  frames w' = frames w ∧
  (∀ r, c ≠ Some r → dicts w' !! r = dicts w !! r) ∧
  (∀ r d, c = Some r → dicts w !! r = Some d →
     ∃ names, dicts w' !! r = Some (extended d names)).

(** ** Axes

    [clean_axis] works on a matplotlib axis: the tick positions of its
    two axes and its spines, each with its own visibility and line
    width. *)

Record Spine : Type := {
  spine_visible : bool;
  spine_linewidth : Q
}.

Record Axis : Type := {
  ax_xticks : list Q;
  ax_yticks : list Q;
  ax_spines : gmap string Spine
}.

(** [spine.set_visible(b)] *)
Definition set_visible (b : bool) (s : Spine) : Spine :=
  {| spine_visible := b; spine_linewidth := spine_linewidth s |}.

(** Remove ticks, tick labels, and frame from axis (lines 44-49). *)
Definition clean_axis (axis : Axis) : Axis :=
  {| ax_xticks := [];
     ax_yticks := [];
     ax_spines := set_visible false <$> ax_spines axis |}.

(** ** Further reference definitions *)

(** The paths on record once a renderer given [out] as its
    [outfilename] has returned: [savefig] is reached with a path that is
    neither [None] nor empty. *)
Definition saved_after (out : option string) (w : World) : list string :=
  match str_truthy out with
  | Some path => path :: saved w
  | None => saved w
  end.

(** The world with its dictionaries replaced. *)
Definition with_dicts (w : World) (ds : gmap loc (PyDict.t string)) : World :=
  {| frames := frames w;
     dicts := ds;
     cmap_registry := cmap_registry w;
     plotting_context := plotting_context w;
     saved := saved w |}.

(** The world with its record of written paths replaced. *)
Definition with_saved (w : World) (paths : list string) : World :=
  {| frames := frames w;
     dicts := dicts w;
     cmap_registry := cmap_registry w;
     plotting_context := plotting_context w;
     saved := paths |}.

(** The world with its plotting context replaced. *)
Definition with_context (w : World) (ctx : string * Q) : World :=
  {| frames := frames w;
     dicts := dicts w;
     cmap_registry := cmap_registry w;
     plotting_context := ctx;
     saved := saved w |}.


(** [m] writes at most the file [out], and only when it returns: after
    an exception the record of written paths is as [m] found it. *)
Definition saves_at_end (out : option string) {A} (m : M A) : Prop :=
  ∀ w r w', m w = (r, w') →
    saved w' = match r with
               | Ok _ => saved_after out w
               | Raise _ => saved w
               end.

(** A second setting: frame 0 is the three genomes, frame 1 has 110
    rows; there are no dictionaries. *)
Module Demo2.

Definition two_frames : World := {|
  frames := {[ 0%nat := Demo.frame; 1%nat := Demo.square_frame 110 ]};
  dicts := ∅;
  cmap_registry := {[ "viridis" ]};
  plotting_context := ("notebook", 1);
  saved := []
|}.

(** Calls on frame [r] with every optional argument left out. *)
Definition plain_args (r : loc) : Args := {|
  dfr := r;
  outfilename := None;
  title := None;
  cmap := None;
  vmin := None;
  vmax := None;
  labels := None;
  classes := None
|}.

(** A call on the three genomes that names a colour map. *)
Definition cmap_args (name : string) : Args := {|
  dfr := 0%nat;
  outfilename := None;
  title := None;
  cmap := Some name;
  vmin := None;
  vmax := None;
  labels := None;
  classes := None
|}.

(** A frame without rows, in a world of its own. *)
Definition empty_frame : DataFrame :=
  {| df_index := []; df_columns := []; df_values := [] |}.

Definition empty_world : World := {|
  frames := {[ 0%nat := empty_frame ]};
  dicts := ∅;
  cmap_registry := {[ "viridis" ]};
  plotting_context := ("notebook", 1);
  saved := []
|}.

End Demo2.

(** * Properties *)

(** ** Python numerics *)

Module PyFacts.

Lemma max2_cases a b :
  (a < b ∧ Py.max2 a b = b) ∨ (b <= a ∧ Py.max2 a b = a).
Proof.
  unfold Py.max2. destruct (Qcompare a b) eqn:E.
  - right. split; [|done]. apply Qeq_alt in E. rewrite E. apply Qle_refl.
  - left. split; [|done]. by apply Qlt_alt.
  - right. split; [|done]. apply Qlt_le_weak. by apply Qgt_alt.
Qed.

Lemma min2_cases a b :
  (b < a ∧ Py.min2 a b = b) ∨ (a <= b ∧ Py.min2 a b = a).
Proof.
  unfold Py.min2. destruct (Qcompare b a) eqn:E.
  - right. split; [|done]. apply Qeq_alt in E. rewrite E. apply Qle_refl.
  - left. split; [|done]. by apply Qlt_alt.
  - right. split; [|done]. apply Qlt_le_weak. by apply Qgt_alt.
Qed.

Lemma max2_lb_l a b : a <= Py.max2 a b.
Proof. destruct (max2_cases a b) as [[? ->]|[? ->]]; lra. Qed.

Lemma max2_lb_r a b : b <= Py.max2 a b.
Proof. destruct (max2_cases a b) as [[? ->]|[? ->]]; lra. Qed.

Lemma min2_ub_l a b : Py.min2 a b <= a.
Proof. destruct (min2_cases a b) as [[? ->]|[? ->]]; lra. Qed.

Lemma min2_ub_r a b : Py.min2 a b <= b.
Proof. destruct (min2_cases a b) as [[? ->]|[? ->]]; lra. Qed.

(** The running minimum is a lower bound of what has been seen and is
    one of the values seen. *)
Lemma foldl_min2_le l : ∀ x, foldl Py.min2 x l <= x.
Proof.
  induction l as [|y l IH]; intros x; simpl; [lra|].
  specialize (IH (Py.min2 x y)). pose proof (min2_ub_l x y). lra.
Qed.

Lemma foldl_min2_lb l : ∀ x y, y ∈ l → foldl Py.min2 x l <= y.
Proof.
  induction l as [|z l IH]; intros x y Hy; simpl.
  - by apply elem_of_nil in Hy.
  - apply elem_of_cons in Hy as [->|Hy]; [|by apply IH].
    pose proof (foldl_min2_le l (Py.min2 x z)).
    pose proof (min2_ub_r x z). lra.
Qed.

Lemma foldl_min2_elem l : ∀ x, foldl Py.min2 x l ∈ x :: l.
Proof.
  induction l as [|z l IH]; intros x; simpl; [set_solver|].
  specialize (IH (Py.min2 x z)). apply elem_of_cons in IH as [->|IH]; [|set_solver].
  destruct (min2_cases x z) as [[_ ->]|[_ ->]]; set_solver.
Qed.

Lemma foldl_max2_ge l : ∀ x, x <= foldl Py.max2 x l.
Proof.
  induction l as [|y l IH]; intros x; simpl; [lra|].
  specialize (IH (Py.max2 x y)). pose proof (max2_lb_l x y). lra.
Qed.

Lemma foldl_max2_ub l : ∀ x y, y ∈ l → y <= foldl Py.max2 x l.
Proof.
  induction l as [|z l IH]; intros x y Hy; simpl.
  - by apply elem_of_nil in Hy.
  - apply elem_of_cons in Hy as [->|Hy]; [|by apply IH].
    pose proof (foldl_max2_ge l (Py.max2 x z)).
    pose proof (max2_lb_r x z). lra.
Qed.

Lemma foldl_max2_elem l : ∀ x, foldl Py.max2 x l ∈ x :: l.
Proof.
  induction l as [|z l IH]; intros x; simpl; [set_solver|].
  specialize (IH (Py.max2 x z)). apply elem_of_cons in IH as [->|IH]; [|set_solver].
  destruct (max2_cases x z) as [[_ ->]|[_ ->]]; set_solver.
Qed.

Lemma min_list_spec l m :
  Py.min_list l = Some m → m ∈ l ∧ ∀ x, x ∈ l → m <= x.
Proof.
  destruct l as [|y l]; [done|]. intros [= <-]. split.
  - apply foldl_min2_elem.
  - intros x [->|Hx]%elem_of_cons.
    + apply foldl_min2_le.
    + by apply foldl_min2_lb.
Qed.

Lemma max_list_spec l m :
  Py.max_list l = Some m → m ∈ l ∧ ∀ x, x ∈ l → x <= m.
Proof.
  destruct l as [|y l]; [done|]. intros [= <-]. split.
  - apply foldl_max2_elem.
  - intros x [->|Hx]%elem_of_cons.
    + apply foldl_max2_ge.
    + by apply foldl_max2_ub.
Qed.

Lemma min_list_is_Some l : l ≠ [] → is_Some (Py.min_list l).
Proof. destruct l; [done|]. by eexists. Qed.

Lemma max_list_is_Some l : l ≠ [] → is_Some (Py.max_list l).
Proof. destruct l; [done|]. by eexists. Qed.

(** *** Decimal logarithm *)

Lemma ilog10_aux_spec fuel : ∀ n,
  (1 <= n)%Z → (Z.log2 n < Z.of_nat fuel)%Z →
  (0 <= Py.ilog10_aux fuel n)%Z ∧
  (10 ^ Py.ilog10_aux fuel n <= n < 10 ^ (Py.ilog10_aux fuel n + 1))%Z.
Proof.
  induction fuel as [|fuel IH]; intros n Hn Hfuel.
  - pose proof (Z.log2_nonneg n). lia.
  - simpl. destruct (Z.ltb_spec n 10) as [Hlt|Hge].
    + change (10 ^ 0)%Z with 1%Z. change (10 ^ (0 + 1))%Z with 10%Z. lia.
    + assert (1 <= n / 10)%Z as H1 by (apply Z.div_le_lower_bound; lia).
      assert (Z.log2 (n / 10) < Z.of_nat fuel)%Z as H2.
      { assert (n / 10 <= n / 2)%Z as Hle.
        { apply Z.div_le_compat_l; lia. }
        apply Z.log2_le_mono in Hle.
        rewrite <- Z.div2_div, Z.div2_spec, Z.log2_shiftr in Hle by lia.
        pose proof (Z.log2_pos n ltac:(lia)). lia. }
      destruct (IH _ H1 H2) as (Hk & Hlo & Hhi).
      set (k := Py.ilog10_aux fuel (n / 10)) in *.
      split; [lia|].
      replace (1 + k + 1)%Z with (Z.succ (k + 1)) by lia.
      replace (1 + k)%Z with (Z.succ k) by lia.
      rewrite !Z.pow_succ_r by lia.
      pose proof (Z.div_mod n 10 ltac:(lia)).
      pose proof (Z.mod_pos_bound n 10 ltac:(lia)). lia.
Qed.

Lemma ilog10_spec n :
  (1 <= n)%Z →
  (0 <= Py.ilog10 n)%Z ∧ (10 ^ Py.ilog10 n <= n < 10 ^ (Py.ilog10 n + 1))%Z.
Proof.
  intros Hn. apply ilog10_aux_spec; [done|].
  pose proof (Z.log2_nonneg n). lia.
Qed.

Lemma floor_log10_spec x l :
  Py.floor_log10 x = Some l → 0 < x ∧ Py.decade x l.
Proof.
  unfold Py.floor_log10, Py.decade.
  destruct (Qcompare 0 x) eqn:E; try done.
  apply Qlt_alt in E. intros [= <-]. split; [done|].
  destruct x as [a b]. unfold Qlt in E. simpl in *.
  assert (1 <= a)%Z as Ha by lia.
  assert (1 <= Z.pos b)%Z as Hb by lia.
  destruct (ilog10_spec a Ha) as (Hla & Ha1 & Ha2).
  destruct (ilog10_spec (Z.pos b) Hb) as (Hlb & Hb1 & Hb2).
  set (la := Py.ilog10 a) in *. set (lb := Py.ilog10 (Z.pos b)) in *.
  rewrite Z.pow_add_r in Ha2, Hb2 by lia.
  change (10 ^ 1)%Z with 10%Z in *.
  assert (0 < 10 ^ la)%Z by (apply Z.pow_pos_nonneg; lia).
  assert (0 < 10 ^ lb)%Z by (apply Z.pow_pos_nonneg; lia).
  destruct (Z.leb_spec 0 (la - lb)) as [Hk|Hk].
  - assert (10 ^ la = 10 ^ (la - lb) * 10 ^ lb)%Z as Hsplit.
    { rewrite <- Z.pow_add_r by lia. f_equal. lia. }
    assert (0 < 10 ^ (la - lb))%Z by (apply Z.pow_pos_nonneg; lia).
    destruct (Z.ltb_spec a (10 ^ (la - lb) * Z.pos b)) as [Hbelow|Hbelow].
    + split.
      * intros Hl.
        replace (la - lb - 1 + 1)%Z with (la - lb)%Z by lia.
        split; [|done].
        assert (10 ^ (la - lb) = 10 * 10 ^ (la - lb - 1))%Z as Hk1.
        { rewrite <- (Z.pow_succ_r 10) by lia. f_equal. lia. }
        assert (0 < 10 ^ (la - lb - 1))%Z by (apply Z.pow_pos_nonneg; lia).
        nia.
      * intros Hl. assert (la - lb = 0)%Z as Hk0 by lia.
        rewrite Hk0 in *. simpl in *.
        change (10 ^ 0)%Z with 1%Z in *. lia.
    + split; [|lia]. intros _. split; [done|].
      rewrite Z.pow_add_r by lia. change (10 ^ 1)%Z with 10%Z. nia.
  - assert (10 ^ lb = 10 ^ (- (la - lb)) * 10 ^ la)%Z as Hsplit.
    { rewrite <- Z.pow_add_r by lia. f_equal. lia. }
    assert (0 < 10 ^ (- (la - lb)))%Z by (apply Z.pow_pos_nonneg; lia).
    destruct (Z.ltb_spec (a * 10 ^ (- (la - lb))) (Z.pos b)) as [Hbelow|Hbelow].
    + split; [lia|]. intros _.
      replace (- (la - lb - 1) - 1)%Z with (- (la - lb))%Z by lia.
      split; [|done].
      replace (- (la - lb - 1))%Z with (- (la - lb) + 1)%Z by lia.
      rewrite Z.pow_add_r by lia. change (10 ^ 1)%Z with 10%Z. nia.
    + split; [lia|]. intros _. split; [done|].
      assert (10 ^ (- (la - lb)) = 10 * 10 ^ (- (la - lb) - 1))%Z as Hk1.
      { rewrite <- (Z.pow_succ_r 10) by lia. f_equal. lia. }
      assert (0 < 10 ^ (- (la - lb) - 1))%Z by (apply Z.pow_pos_nonneg; lia).
      nia.
Qed.

Lemma floor_log10_is_Some x : 0 < x → is_Some (Py.floor_log10 x).
Proof.
  intros Hx. unfold Py.floor_log10.
  assert (Qcompare 0 x = Lt) as -> by (by apply Qlt_alt). by eexists.
Qed.

(** Above ten the logarithm is at least one. *)
Lemma floor_log10_above_10 x :
  10 < x → ∃ l, Py.floor_log10 x = Some l ∧ (1 <= l)%Z.
Proof.
  intros Hx. destruct (floor_log10_is_Some x) as [l Hl]; [lra|].
  exists l. split; [done|].
  apply floor_log10_spec in Hl as [_ [Hpos Hneg]].
  destruct x as [a b]. unfold Qlt in Hx. simpl in *.
  destruct (Z.le_gt_cases 1 l) as [|Hl]; [done|exfalso].
  destruct (Z.eq_dec l 0%Z) as [->|].
  - specialize (Hpos ltac:(lia)). change (10 ^ (0 + 1))%Z with 10%Z in Hpos. lia.
  - destruct (Hneg ltac:(lia)) as [_ Hlt].
    assert (1 <= 10 ^ (- l - 1))%Z.
    { assert (0 < 10 ^ (- l - 1))%Z by (apply Z.pow_pos_nonneg; lia). lia. }
    nia.
Qed.

End PyFacts.

(** ** Dictionaries *)

Module PyDictFacts.
Section Facts.
Context {V : Type}.
Implicit Types (d : PyDict.t V) (k : string) (v : V).

Lemma get_set_eq d k v : PyDict.get (PyDict.set d k v) k = Some v.
Proof.
  induction d as [|[k' v'] d IH]; simpl.
  - by rewrite decide_True.
  - destruct (decide (k' = k)) as [->|Hne]; simpl.
    + by rewrite decide_True.
    + by rewrite decide_False.
Qed.

Lemma get_set_ne d k k' v :
  k ≠ k' → PyDict.get (PyDict.set d k v) k' = PyDict.get d k'.
Proof.
  intros Hne. induction d as [|[k0 v0] d IH]; simpl.
  - by rewrite decide_False.
  - destruct (decide (k0 = k)) as [->|Hne0]; simpl.
    + by rewrite !decide_False.
    + destruct (decide (k0 = k')); [done|apply IH].
Qed.

Lemma get_set d k k' v :
  PyDict.get (PyDict.set d k v) k' =
  if decide (k = k') then Some v else PyDict.get d k'.
Proof.
  destruct (decide (k = k')) as [->|Hne].
  - apply get_set_eq.
  - by apply get_set_ne.
Qed.

Lemma get_None_keys d k : PyDict.get d k = None ↔ k ∉ PyDict.keys d.
Proof.
  unfold PyDict.keys. induction d as [|[k' v'] d IH]; simpl.
  - split; [intros _; apply not_elem_of_nil|done].
  - rewrite not_elem_of_cons. destruct (decide (k' = k)) as [->|Hne].
    + split; [done|]. by intros [? _].
    + split.
      * intros Hk. split; [done|]. by apply IH.
      * intros [_ Hk]. by apply IH.
Qed.

Lemma get_Some_elem d k v : PyDict.get d k = Some v → (k, v) ∈ d.
Proof.
  induction d as [|[k' v'] d IH]; simpl; [done|].
  destruct (decide (k' = k)) as [->|Hne].
  - intros [= ->]. apply elem_of_cons. by left.
  - intros Hd. apply elem_of_cons. right. by apply IH.
Qed.

Lemma elem_get_Some d k v :
  PyDict.wf d → (k, v) ∈ d → PyDict.get d k = Some v.
Proof.
  unfold PyDict.wf, PyDict.keys.
  induction d as [|[k' v'] d IH]; simpl; intros Hwf Hin.
  - by apply elem_of_nil in Hin.
  - apply NoDup_cons in Hwf as [Hk' Hwf].
    apply elem_of_cons in Hin as [[= -> ->]|Hin].
    + by rewrite decide_True.
    + destruct (decide (k' = k)) as [->|Hne]; [|by apply IH].
      exfalso. apply Hk'. apply list_elem_of_fmap. by exists (k, v).
Qed.

(** A new key goes last, an old one keeps its place. *)
Lemma set_fresh d k v :
  k ∉ PyDict.keys d → PyDict.set d k v = d ++ [(k, v)].
Proof.
  unfold PyDict.keys. induction d as [|[k' v'] d IH]; simpl; [done|].
  rewrite not_elem_of_cons. intros [Hne Hk].
  rewrite decide_False by done. by rewrite IH.
Qed.

Lemma keys_set_old d k v :
  k ∈ PyDict.keys d → PyDict.keys (PyDict.set d k v) = PyDict.keys d.
Proof.
  unfold PyDict.keys. induction d as [|[k' v'] d IH]; simpl.
  - by intros ?%elem_of_nil.
  - intros Hin. destruct (decide (k' = k)) as [->|Hne]; [done|].
    apply elem_of_cons in Hin as [?|Hin]; [done|].
    simpl. f_equal. by apply IH.
Qed.

Lemma set_wf d k v : PyDict.wf d → PyDict.wf (PyDict.set d k v).
Proof.
  unfold PyDict.wf. intros Hwf.
  destruct (decide (k ∈ PyDict.keys d)) as [Hin|Hout].
  - by rewrite keys_set_old.
  - rewrite set_fresh by done. unfold PyDict.keys in *.
    rewrite fmap_app. simpl. apply NoDup_app. split_and!; [done| |].
    + intros x Hx ->%list_elem_of_singleton. done.
    + apply NoDup_singleton.
Qed.

(** Looking a key up in a list of pairs that may repeat keys: the
    first pair wins in [get], the last one in [of_items]. *)
Lemma get_app (l1 l2 : list (string * V)) k :
  PyDict.get (l1 ++ l2) k =
  match PyDict.get l1 k with
  | Some v => Some v
  | None => PyDict.get l2 k
  end.
Proof.
  induction l1 as [|[k' v'] l1 IH]; simpl; [done|].
  by destruct (decide (k' = k)).
Qed.

Lemma get_foldl_set (kvs : list (string * V)) : ∀ acc k,
  PyDict.get (foldl (λ d kv, PyDict.set d kv.1 kv.2) acc kvs) k =
  match PyDict.get (reverse kvs) k with
  | Some v => Some v
  | None => PyDict.get acc k
  end.
Proof.
  induction kvs as [|[k1 v1] kvs IH]; intros acc k; simpl; [done|].
  rewrite IH, reverse_cons, get_app. simpl.
  destruct (PyDict.get (reverse kvs) k); [done|].
  rewrite get_set. by destruct (decide (k1 = k)).
Qed.

Lemma get_of_items (kvs : list (string * V)) k :
  PyDict.get (PyDict.of_items kvs) k = PyDict.get (reverse kvs) k.
Proof.
  unfold PyDict.of_items. rewrite get_foldl_set.
  by destruct (PyDict.get (reverse kvs) k).
Qed.

Lemma foldl_set_fresh (kvs : list (string * V)) : ∀ acc,
  NoDup (acc.*1 ++ kvs.*1) →
  foldl (λ d kv, PyDict.set d kv.1 kv.2) acc kvs = acc ++ kvs.
Proof.
  induction kvs as [|[k1 v1] kvs IH]; intros acc Hnd; simpl.
  - by rewrite app_nil_r.
  - simpl in Hnd.
    assert (k1 ∉ acc.*1) as Hk1.
    { apply NoDup_app in Hnd as (_ & Hdisj & _).
      intros Hin. apply (Hdisj _ Hin). apply elem_of_cons. by left. }
    rewrite set_fresh by done. rewrite IH.
    + by rewrite <- app_assoc.
    + rewrite fmap_app. simpl. rewrite <- app_assoc. done.
Qed.

(** With distinct keys the comprehension keeps the pairs as listed. *)
Lemma of_items_NoDup (kvs : list (string * V)) :
  NoDup kvs.*1 → PyDict.of_items kvs = kvs.
Proof. intros Hnd. unfold PyDict.of_items. by rewrite foldl_set_fresh. Qed.

End Facts.
End PyDictFacts.

(** ** The extension of a class map *)

Lemma extended_app d names1 names2 :
  extended d (names1 ++ names2) = extended (extended d names1) names2.
Proof. unfold extended. apply foldl_app. Qed.

Lemma extended_get names : ∀ d k,
  PyDict.get (extended d names) k =
  match PyDict.get d k with
  | Some v => Some v
  | None => if decide (k ∈ names) then Some k else None
  end.
Proof.
  induction names as [|n names IH]; intros d k.
  - change (extended d []) with d. destruct (PyDict.get d k); [done|].
    rewrite decide_False; [done|apply not_elem_of_nil].
  - change (extended d (n :: names))
      with (extended (if PyDict.contains d n then d else PyDict.set d n n) names).
    rewrite IH. unfold PyDict.contains.
    destruct (PyDict.get d n) as [vn|] eqn:En.
    + destruct (PyDict.get d k) as [v|] eqn:Ek; [done|].
      assert (k ≠ n) by congruence.
      destruct (decide (k ∈ names)) as [Hin|Hout].
      * rewrite decide_True; [done|]. apply elem_of_cons. by right.
      * rewrite decide_False; [done|]. rewrite not_elem_of_cons. done.
    + rewrite PyDictFacts.get_set.
      destruct (decide (n = k)) as [->|Hne].
      * rewrite En. rewrite decide_True; [done|]. apply elem_of_cons. by left.
      * destruct (PyDict.get d k) as [v|]; [done|].
        destruct (decide (k ∈ names)) as [Hin|Hout].
        -- rewrite decide_True; [done|]. apply elem_of_cons. by right.
        -- rewrite decide_False; [done|]. rewrite not_elem_of_cons.
           split; [congruence|done].
Qed.

(** Nothing is added when every identifier has a class already. *)
Lemma extended_id names : ∀ d,
  (∀ n, n ∈ names → is_Some (PyDict.get d n)) → extended d names = d.
Proof.
  induction names as [|n names IH]; intros d Hall; [done|].
  change (extended d (n :: names))
    with (extended (if PyDict.contains d n then d else PyDict.set d n n) names).
  unfold PyDict.contains.
  destruct (Hall n) as [v ->]; [apply elem_of_cons; by left|].
  apply IH. intros m Hm. apply Hall. apply elem_of_cons. by right.
Qed.

(** Afterwards every identifier seen has a class. *)
Lemma extended_covers d names n :
  n ∈ names → is_Some (PyDict.get (extended d names) n).
Proof.
  intros Hn. rewrite extended_get.
  destruct (PyDict.get d n); [by eexists|].
  rewrite decide_True by done. by eexists.
Qed.

(** ** Running computations *)

Lemma bind_Ok {A B} (m : M A) (k : A → M B) w b w' :
  (m ≫= k) w = (Ok b, w') →
  ∃ a w1, m w = (Ok a, w1) ∧ k a w1 = (Ok b, w').
Proof.
  unfold mbind, M_bind. destruct (m w) as [[a|e] w1]; [|done].
  intros Hk. by exists a, w1.
Qed.

Lemma ret_Ok {A} (a b : A) w w' :
  (mret a : M A) w = (Ok b, w') → b = a ∧ w' = w.
Proof. unfold mret, M_ret. by intros [= -> ->]. Qed.

Lemma lift_Ok {A} (r : result A) a w w' :
  lift r w = (Ok a, w') → r = Ok a ∧ w' = w.
Proof. unfold lift. by intros [= -> ->]. Qed.

Lemma of_option_Ok {A} e (o : option A) a : of_option e o = Ok a → o = Some a.
Proof. destruct o; simpl; [by intros [= ->]|done]. Qed.

#[global] Instance unchanged_preorder {X} (proj : World → X) :
  PreOrder (unchanged proj).
Proof.
  split; [by intros w|]. intros w1 w2 w3 H12 H23. unfold unchanged in *.
  congruence.
Qed.

#[global] Instance same_preorder : PreOrder same.
Proof.
  split; [by intros w|]. intros w1 w2 w3 H12 H23. unfold same in *.
  congruence.
Qed.

#[global] Instance class_extension_preorder c : PreOrder (class_extension c).
Proof.
  split.
  - intros w. split_and!; [done..|]. intros r d _ Hd. by exists [].
  - intros w1 w2 w3 (Hf12 & Ho12 & Hc12) (Hf23 & Ho23 & Hc23).
    split_and!.
    + congruence.
    + intros r Hr. rewrite Ho23, Ho12; done.
    + intros r d Hc Hd.
      destruct (Hc12 r d Hc Hd) as [names1 H2].
      destruct (Hc23 r _ Hc H2) as [names2 H3].
      exists (names1 ++ names2). by rewrite extended_app.
Qed.

Section Stable.
Context (R : relation World) `{!PreOrder R}.

Lemma stable_same {A} (m : M A) : stable same m → stable R m.
Proof. intros Hm w. rewrite (Hm w). reflexivity. Qed.

Lemma stable_ret {A} (a : A) : stable R (mret a : M A).
Proof. intros w. reflexivity. Qed.

Lemma stable_lift {A} (r : result A) : stable R (lift r).
Proof. intros w. reflexivity. Qed.

Lemma stable_bind {A B} (m : M A) (k : A → M B) :
  stable R m → (∀ a, stable R (k a)) → stable R (m ≫= k).
Proof.
  intros Hm Hk w. unfold mbind, M_bind. specialize (Hm w).
  destruct (m w) as [[a|e] w1]; simpl in *; [|done].
  etrans; [exact Hm|apply Hk].
Qed.

Lemma stable_try_except {A} (body handler : M A) e :
  stable R body → stable R handler → stable R (try_except body e handler).
Proof.
  intros Hb Hh w. unfold try_except. specialize (Hb w).
  destruct (body w) as [[a|e'] w1]; simpl in *; [done|].
  destruct (decide (e' = e)); [|done].
  etrans; [exact Hb|apply Hh].
Qed.

Lemma stable_for {A} (xs : list A) (body : A → M unit) :
  (∀ x, stable R (body x)) → stable R (for_ xs body).
Proof.
  intros Hbody. induction xs as [|x xs IH]; simpl.
  - apply stable_ret.
  - apply stable_bind; [apply Hbody|by intros _].
Qed.

Lemma stable_for_append {A B} (xs : list A) (body : A → M B) :
  (∀ x, stable R (body x)) → stable R (for_append xs body).
Proof.
  intros Hbody. induction xs as [|x xs IH]; simpl.
  - apply stable_ret.
  - apply stable_bind; [apply Hbody|]. intros y.
    apply stable_bind; [apply IH|]. intros ys. apply stable_ret.
Qed.

Lemma stable_from_option {A B} (k : A → M B) (m : M B) (o : option A) :
  (∀ a, stable R (k a)) → stable R m → stable R (from_option k m o).
Proof. intros Hk Hm. by destruct o; simpl. Qed.

End Stable.

(** Reads leave the world as it is. *)
Lemma read_frame_same r : stable same (read_frame r).
Proof. by intros w. Qed.

Lemma read_dict_same r : stable same (read_dict r).
Proof. by intros w. Qed.

Lemma get_cmap_same `{ThirdParty} name : stable same (get_cmap name).
Proof. intros w. unfold get_cmap. by destruct name. Qed.

Lemma dict_getitem_same r k : stable same (dict_getitem r k).
Proof.
  apply stable_bind; [apply _|apply read_dict_same|].
  intros d. apply stable_lift, _.
Qed.

Lemma dict_contains_same r k : stable same (dict_contains r k).
Proof.
  apply stable_bind; [apply _|apply read_dict_same|].
  intros d. apply stable_ret, _.
Qed.

Lemma strip_cell_same r classdict name :
  stable same (strip_cell r classdict name).
Proof.
  apply stable_try_except; [apply _| |apply stable_lift, _].
  apply stable_bind; [apply _|apply dict_getitem_same|].
  intros cls. apply stable_lift, _.
Qed.

(** Writes leave the other components as they are. *)
Lemma dict_setitem_frames r k v : stable (unchanged frames) (dict_setitem r k v).
Proof. intros w. unfold dict_setitem. by destruct (dicts w !! r). Qed.

Lemma dict_setitem_registry r k v :
  stable (unchanged cmap_registry) (dict_setitem r k v).
Proof. intros w. unfold dict_setitem. by destruct (dicts w !! r). Qed.

Lemma dict_setitem_context r k v :
  stable (unchanged plotting_context) (dict_setitem r k v).
Proof. intros w. unfold dict_setitem. by destruct (dicts w !! r). Qed.

Lemma savefig_frames p : stable (unchanged frames) (savefig p).
Proof. by intros w. Qed.

Lemma savefig_dicts p : stable (unchanged dicts) (savefig p).
Proof. by intros w. Qed.

Lemma savefig_registry p : stable (unchanged cmap_registry) (savefig p).
Proof. by intros w. Qed.

Lemma savefig_context p : stable (unchanged plotting_context) (savefig p).
Proof. by intros w. Qed.

Lemma savefig_class_extension c p : stable (class_extension c) (savefig p).
Proof.
  intros w. split_and!; [done..|]. intros r d _ Hd. by exists [].
Qed.

Lemma set_context_frames ctx s : stable (unchanged frames) (set_context ctx s).
Proof. by intros w. Qed.

Lemma set_context_dicts ctx s : stable (unchanged dicts) (set_context ctx s).
Proof. by intros w. Qed.

Lemma set_context_registry ctx s :
  stable (unchanged cmap_registry) (set_context ctx s).
Proof. by intros w. Qed.

Lemma register_cmap_frames n : stable (unchanged frames) (register_cmap n).
Proof. by intros w. Qed.

Lemma register_cmap_dicts n : stable (unchanged dicts) (register_cmap n).
Proof. by intros w. Qed.

Lemma register_cmap_context n :
  stable (unchanged plotting_context) (register_cmap n).
Proof. by intros w. Qed.

(** One round of the loop over the column labels adds at most the entry
    [name -> name] to the class map, and touches nothing else. *)
Lemma extend_classes_class_extension c name :
  stable (class_extension (Some c)) (extend_classes c name).
Proof.
  intros w. unfold extend_classes, dict_contains, read_dict, dict_setitem.
  unfold mbind, M_bind, mret, M_ret, lift. simpl.
  destruct (dicts w !! c) as [d|] eqn:Ed; simpl.
  - destruct (PyDict.contains d name) eqn:Ec; simpl.
    + reflexivity.
    + rewrite Ed. simpl. split_and!; [done| |].
      * intros r Hr. simpl. rewrite lookup_insert_ne; [done|congruence].
      * intros r d' [= <-] Hd'. rewrite Ed in Hd'. injection Hd' as <-.
        exists [name]. simpl. rewrite lookup_insert_eq. by rewrite Ec.
  - reflexivity.
Qed.

Ltac stable_step :=
  first
    [ apply stable_ret
    | apply stable_lift
    | apply stable_bind
    | apply stable_try_except
    | apply stable_for
    | apply stable_for_append
    | apply stable_from_option
    | apply stable_same;
      [ apply _ ..
      | first
          [ apply read_frame_same
          | apply read_dict_same
          | apply get_cmap_same
          | apply dict_getitem_same
          | apply dict_contains_same
          | apply strip_cell_same ] ] ].

Ltac stable_with tac :=
  repeat first
    [ match goal with |- ∀ _, _ => intro end
    | apply _
    | assumption
    | tac
    | stable_step ].

Ltac stable_auto := stable_with fail.

Section RendererStability.
Context `{ThirdParty} (R : relation World) `{!PreOrder R}.

Lemma seaborn_class_colours_stable f c :
  stable R (seaborn_class_colours f c).
Proof. unfold seaborn_class_colours. destruct c; stable_auto. Qed.

Lemma seaborn_labels_stable f l : stable R (seaborn_labels f l).
Proof. unfold seaborn_labels. destruct l; stable_auto. Qed.

Lemma mpl_ticklabels_stable f rl cl l :
  stable R (mpl_ticklabels f rl cl l).
Proof.
  unfold mpl_ticklabels. repeat (stable_auto; try case_match).
Qed.

Lemma mpl_class_strips_stable f rl cl c :
  (∀ r name, c = Some r → stable R (extend_classes r name)) →
  stable R (mpl_class_strips f rl cl c).
Proof.
  intros Hext. unfold mpl_class_strips.
  destruct c as [r|]; stable_with ltac:(by apply Hext).
Qed.

Lemma heatmap_seaborn_stable a :
  (∀ ctx s, stable R (set_context ctx s)) →
  (∀ p, stable R (savefig p)) →
  stable R (heatmap_seaborn a).
Proof.
  intros Hctx Hsave. unfold heatmap_seaborn.
  stable_with ltac:(first
    [ apply Hsave
    | apply seaborn_class_colours_stable
    | apply seaborn_labels_stable ]).
  unfold seaborn_font_scale. destruct (Qeq_bool _ _); stable_auto.
  apply Hctx.
Qed.

Lemma heatmap_mpl_stable a :
  (∀ r name, classes a = Some r → stable R (extend_classes r name)) →
  (∀ p, stable R (savefig p)) →
  stable R (heatmap_mpl a).
Proof.
  intros Hext Hsave. unfold heatmap_mpl.
  stable_with ltac:(first
    [ apply Hsave
    | by apply mpl_class_strips_stable
    | apply mpl_ticklabels_stable ]).
Qed.

End RendererStability.

(** ** What the renderers leave alone *)

Section Frames.
Context `{ThirdParty}.

Lemma extend_classes_unchanged {X} (proj : World → X) c name :
  (∀ k v, stable (unchanged proj) (dict_setitem c k v)) →
  stable (unchanged proj) (extend_classes c name).
Proof.
  intros Hset. unfold extend_classes. stable_auto.
  case_match; stable_auto. apply Hset.
Qed.

Lemma heatmap_seaborn_frames a : stable (unchanged frames) (heatmap_seaborn a).
Proof.
  apply heatmap_seaborn_stable;
    [apply _|apply set_context_frames|apply savefig_frames].
Qed.

Lemma heatmap_seaborn_dicts a : stable (unchanged dicts) (heatmap_seaborn a).
Proof.
  apply heatmap_seaborn_stable;
    [apply _|apply set_context_dicts|apply savefig_dicts].
Qed.

Lemma heatmap_seaborn_registry a :
  stable (unchanged cmap_registry) (heatmap_seaborn a).
Proof.
  apply heatmap_seaborn_stable;
    [apply _|apply set_context_registry|apply savefig_registry].
Qed.

Lemma heatmap_mpl_frames a : stable (unchanged frames) (heatmap_mpl a).
Proof.
  apply heatmap_mpl_stable; [apply _| |apply savefig_frames].
  intros r name _. apply extend_classes_unchanged, dict_setitem_frames.
Qed.

Lemma heatmap_mpl_registry a :
  stable (unchanged cmap_registry) (heatmap_mpl a).
Proof.
  apply heatmap_mpl_stable; [apply _| |apply savefig_registry].
  intros r name _. apply extend_classes_unchanged, dict_setitem_registry.
Qed.

Lemma heatmap_mpl_context a :
  stable (unchanged plotting_context) (heatmap_mpl a).
Proof.
  apply heatmap_mpl_stable; [apply _| |apply savefig_context].
  intros r name _. apply extend_classes_unchanged, dict_setitem_context.
Qed.

Lemma heatmap_mpl_class_extension a :
  stable (class_extension (classes a)) (heatmap_mpl a).
Proof.
  apply heatmap_mpl_stable; [apply _| |apply savefig_class_extension].
  intros r name ->. apply extend_classes_class_extension.
Qed.

End Frames.

(** ** Successful runs, step by step *)

Lemma stable_run (R : relation World) {A} (m : M A) w r w' :
  stable R m → m w = (r, w') → R w w'.
Proof. intros Hm Hrun. specialize (Hm w). by rewrite Hrun in Hm. Qed.

Lemma read_frame_Ok r w f w' :
  read_frame r w = (Ok f, w') → frames w !! r = Some f ∧ w' = w.
Proof.
  unfold read_frame. intros [= Hf ->]. split; [|done].
  by apply of_option_Ok in Hf.
Qed.

Lemma read_dict_Ok r w d w' :
  read_dict r w = (Ok d, w') → dicts w !! r = Some d ∧ w' = w.
Proof.
  unfold read_dict. intros [= Hd ->]. split; [|done].
  by apply of_option_Ok in Hd.
Qed.

Ltac inv_bind H a w1 Hm :=
  apply bind_Ok in H as (a & w1 & Hm & H).

Section Runs.
Context `{ThirdParty}.

Lemma heatmap_seaborn_Ok a w fig w' :
  heatmap_seaborn a w = (Ok fig, w') →
  ∃ f w1 col_cb newlabels,
    frames w !! dfr a = Some f ∧
    seaborn_font_scale (Frame.shape0 f) w = (Ok (), w1) ∧
    seaborn_class_colours f (classes a) w1 = (Ok col_cb, w1) ∧
    seaborn_labels f (labels a) w1 = (Ok newlabels, w1) ∧
    plotting_context w' = plotting_context w1 ∧
    cm_data (sf_call fig) = f ∧
    cm_figsize (sf_call fig) =
      (seaborn_figsize (Frame.shape0 f), seaborn_figsize (Frame.shape0 f)) ∧
    cm_col_colors (sf_call fig) = col_cb ∧
    cm_row_colors (sf_call fig) = col_cb ∧
    cm_xticklabels (sf_call fig) = newlabels ∧
    cm_yticklabels (sf_call fig) = newlabels.
Proof.
  unfold heatmap_seaborn. intros Hrun.
  inv_bind Hrun cm w0 Hcmap.
  apply (stable_run same) in Hcmap as ->; [|apply get_cmap_same].
  inv_bind Hrun f w0 Hf. apply read_frame_Ok in Hf as [Hf ->].
  inv_bind Hrun u w1 Hfont. destruct u.
  inv_bind Hrun col_cb w2 Hcol.
  pose proof (stable_run same _ _ _ _
                (seaborn_class_colours_stable same f (classes a)) Hcol) as ->.
  inv_bind Hrun newlabels w2 Hlab.
  pose proof (stable_run same _ _ _ _
                (seaborn_labels_stable same f (labels a)) Hlab) as ->.
  inv_bind Hrun grid w2 Hgrid. apply lift_Ok in Hgrid as [Hgrid ->].
  inv_bind Hrun u w2 Hsave.
  apply ret_Ok in Hrun as [-> ->].
  exists f, w1, col_cb, newlabels. split_and!; try done.
  eapply (stable_run (unchanged plotting_context)); [|exact Hsave].
  stable_with ltac:(apply savefig_context).
Qed.

Lemma heatmap_mpl_Ok a w fig w' :
  heatmap_mpl a w = (Ok fig, w') →
  ∃ f colleaves rowleaves w1 strips ticklabels,
    frames w !! dfr a = Some f ∧
    effective_vmin a f = Ok (mf_vmin fig) ∧
    effective_vmax a f = Ok (mf_vmax fig) ∧
    colourbar_ticks (mf_vmin fig) (mf_vmax fig) = Ok (mf_cbticks fig) ∧
    cluster_leaves (df_values (Frame.transpose f)) "top" = Ok colleaves ∧
    cluster_leaves (df_values f) "left" = Ok rowleaves ∧
    Frame.ix f rowleaves colleaves = Ok (mf_heatmap fig) ∧
    mpl_class_strips f rowleaves colleaves (classes a) w = (Ok strips, w1) ∧
    mpl_ticklabels f rowleaves colleaves (labels a) w1 = (Ok ticklabels, w1) ∧
    dicts w' = dicts w1 ∧
    mf_figsize fig =
      (mpl_figsize (Frame.shape0 f), mpl_figsize (Frame.shape0 f)) ∧
    mf_col_cb fig = strips.1 ∧
    mf_row_cb fig = strips.2 ∧
    mf_yticklabels fig = ticklabels.1 ∧
    mf_xticklabels fig = ticklabels.2.
Proof.
  unfold heatmap_mpl. intros Hrun.
  inv_bind Hrun f w0 Hf. apply read_frame_Ok in Hf as [Hf ->].
  inv_bind Hrun lo w0 Hlo. apply lift_Ok in Hlo as [Hlo ->].
  inv_bind Hrun hi w0 Hhi. apply lift_Ok in Hhi as [Hhi ->].
  inv_bind Hrun cbticks w0 Hticks. apply lift_Ok in Hticks as [Hticks ->].
  inv_bind Hrun cm w0 Hcmap.
  apply (stable_run same) in Hcmap as ->; [|apply get_cmap_same].
  inv_bind Hrun colleaves w0 Hcol. apply lift_Ok in Hcol as [Hcol ->].
  inv_bind Hrun rowleaves w0 Hrow. apply lift_Ok in Hrow as [Hrow ->].
  inv_bind Hrun heat w0 Hheat. apply lift_Ok in Hheat as [Hheat ->].
  inv_bind Hrun strips w1 Hstrips.
  inv_bind Hrun ticklabels w2 Hlabels.
  pose proof (stable_run same _ _ _ _
                (mpl_ticklabels_stable same f rowleaves colleaves (labels a))
                Hlabels) as ->.
  inv_bind Hrun u w2 Hsave.
  apply ret_Ok in Hrun as [-> ->].
  exists f, colleaves, rowleaves, w1, strips, ticklabels.
  split_and!; try done.
  eapply (stable_run (unchanged dicts)); [|exact Hsave].
  stable_with ltac:(apply savefig_dicts).
Qed.

End Runs.

(** ** Figure size *)

Section FigureSize.
Context `{ThirdParty}.

Lemma seaborn_figsize_bounds n :
  8 <= seaborn_figsize n ∧ seaborn_figsize n <= maxfigsize.
Proof.
  unfold seaborn_figsize, maxfigsize.
  pose proof (PyFacts.max2_lb_l 8 (calcfigsize n)).
  destruct (PyFacts.min2_cases (Py.max2 8 (calcfigsize n)) 120)
    as [[? ->]|[? ->]]; split; lra.
Qed.

Lemma calcfigsize_max n : maxfigsize <= calcfigsize n ↔ (110 ≤ n)%nat.
Proof. unfold maxfigsize, calcfigsize, Qle. simpl. lia. Qed.

(** Eleven tenths of a whole number of rows is never exactly 120. *)
Lemma calcfigsize_above_max n : (110 ≤ n)%nat → maxfigsize < calcfigsize n.
Proof. unfold maxfigsize, calcfigsize, Qlt. simpl. lia. Qed.

Lemma seaborn_figsize_max n :
  (110 ≤ n)%nat → seaborn_figsize n == maxfigsize.
Proof.
  intros Hn%calcfigsize_max. unfold seaborn_figsize, maxfigsize in *.
  destruct (PyFacts.max2_cases 8 (calcfigsize n)) as [[? ->]|[? ->]];
    [|lra].
  destruct (PyFacts.min2_cases (calcfigsize n) 120) as [[? ->]|[? ->]]; lra.
Qed.

Lemma seaborn_figsize_below n :
  (n < 110)%nat → seaborn_figsize n < maxfigsize.
Proof.
  intros Hn. assert (calcfigsize n < maxfigsize) as Hlt.
  { apply Qnot_le_lt. rewrite calcfigsize_max. lia. }
  unfold seaborn_figsize, maxfigsize in *.
  destruct (PyFacts.max2_cases 8 (calcfigsize n)) as [[? ->]|[? ->]].
  - destruct (PyFacts.min2_cases (calcfigsize n) 120) as [[? ->]|[? ->]]; lra.
  - destruct (PyFacts.min2_cases 8 120) as [[? ->]|[? ->]]; lra.
Qed.

Lemma font_scale_below_1 n :
  (110 ≤ n)%nat → 0 < maxfigsize / calcfigsize n ∧ maxfigsize / calcfigsize n < 1.
Proof.
  intros Hn%calcfigsize_above_max. unfold maxfigsize in *. split.
  - apply Qlt_shift_div_l; lra.
  - apply Qlt_shift_div_r; lra.
Qed.

(** The font scale is written exactly when the maximum is hit. *)
Lemma seaborn_font_scale_run n w :
  seaborn_font_scale n w =
  (Ok (),
   if decide (110 ≤ n)%nat
   then {| frames := frames w; dicts := dicts w;
           cmap_registry := cmap_registry w;
           plotting_context := ("notebook"%string, maxfigsize / calcfigsize n);
           saved := saved w |}
   else w).
Proof.
  unfold seaborn_font_scale.
  destruct (decide (110 ≤ n)%nat) as [Hn|Hn].
  - apply seaborn_figsize_max in Hn. apply Qeq_bool_iff in Hn.
    by rewrite Hn.
  - assert (Qeq_bool (seaborn_figsize n) maxfigsize = false) as ->; [|done].
    apply not_true_is_false. rewrite Qeq_bool_iff.
    pose proof (seaborn_figsize_below n ltac:(lia)). lra.
Qed.

Lemma mpl_figsize_lower n :
  8 <= mpl_figsize n ∧ inject_Z (Z.of_nat n) * 0.175 <= mpl_figsize n.
Proof.
  unfold mpl_figsize. split;
    [apply PyFacts.max2_lb_l|apply PyFacts.max2_lb_r].
Qed.

(** C1, as the code has it. In [heatmap_seaborn] the figure size lies
    between 8 and 120 for every matrix; with 110 rows or more it is
    120 and the plotting context is set to the font scale
    [120 / (1.1 * rows)], which is below 1; with fewer rows it is
    below 120 and the context is left alone. In [heatmap_mpl] the
    figure size is [max(8, 0.175 * rows)]: at least 8 and at least
    [0.175 * rows], so without a maximum, and the context is never
    written. *)
Theorem figure_size_bounds (a : Args) (w : World) (f : DataFrame) :
  frames w !! dfr a = Some f →
  let n := Frame.shape0 f in
  (∀ fig w', heatmap_seaborn a w = (Ok fig, w') →
     cm_figsize (sf_call fig) = (seaborn_figsize n, seaborn_figsize n) ∧
     8 <= seaborn_figsize n ∧ seaborn_figsize n <= 120 ∧
     ((110 ≤ n)%nat →
        seaborn_figsize n == 120 ∧
        plotting_context w' = ("notebook"%string, 120 / calcfigsize n) ∧
        120 / calcfigsize n < 1) ∧
     ((n < 110)%nat →
        seaborn_figsize n < 120 ∧
        plotting_context w' = plotting_context w)) ∧
  (∀ fig w', heatmap_mpl a w = (Ok fig, w') →
     mf_figsize fig = (mpl_figsize n, mpl_figsize n) ∧
     8 <= mpl_figsize n ∧
     inject_Z (Z.of_nat n) * 0.175 <= mpl_figsize n ∧
     plotting_context w' = plotting_context w).
Proof.
  intros Hf n. split.
  - intros fig w' Hrun.
    apply heatmap_seaborn_Ok in Hrun
      as (f' & w1 & col_cb & newlabels & Hf' & Hfont & _ & _ & Hctx & _ & Hsize & _).
    assert (f' = f) as -> by congruence. fold n in Hfont, Hsize.
    rewrite seaborn_font_scale_run in Hfont. injection Hfont as <-.
    split; [done|]. destruct (seaborn_figsize_bounds n) as [Hlo Hhi].
    split; [done|]. split; [done|]. split.
    + intros Hn. rewrite decide_True in Hctx by done.
      split; [by apply seaborn_figsize_max|]. split; [done|].
      by apply font_scale_below_1.
    + intros Hn. rewrite decide_False in Hctx by lia.
      split; [by apply seaborn_figsize_below|done].
  - intros fig w' Hrun.
    pose proof (stable_run _ _ _ _ _ (heatmap_mpl_context a) Hrun) as Hctx.
    apply heatmap_mpl_Ok in Hrun
      as (f' & cl & rl & w1 & strips & tl & Hf' & _ & _ & _ & _ & _ & _ & _ & _ & _
          & Hsize & _).
    assert (f' = f) as -> by congruence.
    destruct (mpl_figsize_lower n) as [Hlo Hhi]. done.
Qed.

End FigureSize.

(** On the three genomes both figures have the minimum size and the
    plotting context is the one the call found. *)
Lemma figure_size_bounds_witness :
  ∃ figs ws figm wm,
    @heatmap_seaborn Demo.libs Demo.args Demo.world = (Ok figs, ws) ∧
    @heatmap_mpl Demo.libs Demo.args Demo.world = (Ok figm, wm) ∧
    cm_figsize (@sf_call Demo.libs figs) = (seaborn_figsize 3, seaborn_figsize 3) ∧
    seaborn_figsize 3 < 120 ∧
    plotting_context ws = plotting_context Demo.world ∧
    mf_figsize figm = (mpl_figsize 3, mpl_figsize 3) ∧
    plotting_context wm = plotting_context Demo.world.
Proof.
  destruct (@figure_size_bounds Demo.libs Demo.args Demo.world Demo.frame eq_refl)
    as [Hs Hm].
  change (Frame.shape0 Demo.frame) with 3%nat in Hs, Hm.
  destruct (@heatmap_seaborn Demo.libs Demo.args Demo.world) as [[figs|e] ws] eqn:Es;
    [|by vm_compute in Es].
  destruct (@heatmap_mpl Demo.libs Demo.args Demo.world) as [[figm|e] wm] eqn:Em;
    [|by vm_compute in Em].
  exists figs, ws, figm, wm.
  destruct (Hs figs ws eq_refl) as (H1 & _ & _ & _ & H2).
  destruct (H2 ltac:(lia)) as [H3 H4].
  destruct (Hm figm wm eq_refl) as (H5 & _ & _ & H6).
  split_and!; done.
Defined.

(** C1 as it is worded fails for [heatmap_mpl]: a matrix of 1000 rows
    gets a figure of size 175, above the maximum of 120. *)
Lemma figure_size_mpl_exceeds_maximum :
  ¬ (8 <= mpl_figsize 1000 ∧ mpl_figsize 1000 <= maxfigsize).
Proof. intros [_ Hmax]. vm_compute in Hmax. by apply Hmax. Qed.

(** ** The colour scale of [heatmap_mpl] *)

Section ColourScale.
Context `{ThirdParty}.


(** The guard [vmax > 10] keeps the logarithm inside its domain: the
    tick computation never raises. *)
Lemma colourbar_ticks_total lo hi :
  ∃ ticks, colourbar_ticks lo hi = Ok ticks ∧ length ticks = 5%nat.
Proof.
  unfold colourbar_ticks. destruct (Qcompare hi 10) eqn:E.
  - by eexists.
  - by eexists.
  - apply Qgt_alt in E.
    destruct (PyFacts.floor_log10_above_10 hi E) as (l & -> & _).
    by eexists.
Qed.


(** C10. A bound the caller supplies is used unchanged; a bound left
    out is the least (greatest) cell of the matrix; these are the
    bounds the figure is drawn with. *)
Theorem colour_scale_defaults (a : Args) (f : DataFrame) :
  (∀ v, vmin a = Some v → effective_vmin a f = Ok v) ∧
  (∀ v, vmax a = Some v → effective_vmax a f = Ok v) ∧
  (vmin a = None → concat (df_values f) ≠ [] →
     ∃ m, effective_vmin a f = Ok m ∧
          m ∈ concat (df_values f) ∧
          ∀ x, x ∈ concat (df_values f) → m <= x) ∧
  (vmax a = None → concat (df_values f) ≠ [] →
     ∃ m, effective_vmax a f = Ok m ∧
          m ∈ concat (df_values f) ∧
          ∀ x, x ∈ concat (df_values f) → x <= m) ∧
  (∀ w fig w',
     frames w !! dfr a = Some f → heatmap_mpl a w = (Ok fig, w') →
     effective_vmin a f = Ok (mf_vmin fig) ∧
     effective_vmax a f = Ok (mf_vmax fig)).
Proof.
  split_and!.
  - intros v Hv. unfold effective_vmin. by rewrite Hv.
  - intros v Hv. unfold effective_vmax. by rewrite Hv.
  - intros Hnone Hcells. unfold effective_vmin, Frame.values_min.
    rewrite Hnone.
    destruct (PyFacts.min_list_is_Some _ Hcells) as [m Hm].
    exists m. rewrite Hm. split; [done|].
    by apply PyFacts.min_list_spec.
  - intros Hnone Hcells. unfold effective_vmax, Frame.values_max.
    rewrite Hnone.
    destruct (PyFacts.max_list_is_Some _ Hcells) as [m Hm].
    exists m. rewrite Hm. split; [done|].
    by apply PyFacts.max_list_spec.
  - intros w fig w' Hf Hrun.
    apply heatmap_mpl_Ok in Hrun
      as (f' & cl & rl & w1 & strips & tl & Hf' & Hlo & Hhi & _).
    assert (f' = f) as -> by congruence. done.
Qed.


End ColourScale.

(** On the three genomes the defaults are the least and the greatest
    similarity. *)
Lemma colour_scale_defaults_witness :
  (∃ m, effective_vmin Demo.args Demo.frame = Ok m ∧
        m ∈ concat (df_values Demo.frame) ∧
        ∀ x, x ∈ concat (df_values Demo.frame) → m <= x) ∧
  (∃ m, effective_vmax Demo.args Demo.frame = Ok m ∧
        m ∈ concat (df_values Demo.frame) ∧
        ∀ x, x ∈ concat (df_values Demo.frame) → x <= m) ∧
  effective_vmin Demo.flat_args Demo.frame = Ok 50.
Proof.
  destruct (@colour_scale_defaults Demo.libs Demo.args Demo.frame)
    as (_ & _ & Hmin & Hmax & _).
  destruct (@colour_scale_defaults Demo.libs Demo.flat_args Demo.frame)
    as (Hgiven & _).
  split; [apply Hmin; done|]. split; [apply Hmax; done|].
  apply Hgiven. reflexivity.
Defined.


Example colourbar_ticks_70_1234 :
  colourbar_ticks 70 1234 = Ok [100; 400; 700; 900; 1200].
Proof. reflexivity. Qed.

Example colourbar_ticks_0_100 :
  colourbar_ticks 0 100 = Ok [0; 20; 50; 80; 100].
Proof. reflexivity. Qed.

(** ** The caller's objects *)

Section Inputs.
Context `{ThirdParty}.

(** The loop over the column labels, run to its end. *)
Lemma for_extend_classes_run c names : ∀ w d,
  dicts w !! c = Some d →
  ∃ w', for_ names (extend_classes c) w = (Ok (), w') ∧
        dicts w' = <[c := extended d names]> (dicts w) ∧
        frames w' = frames w ∧
        cmap_registry w' = cmap_registry w ∧
        plotting_context w' = plotting_context w ∧
        saved w' = saved w.
Proof.
  induction names as [|n names IH]; intros w d Hd.
  - exists w. split; [done|]. split; [|done].
    change (extended d []) with d. by rewrite insert_id.
  - change (extended d (n :: names))
      with (extended (if PyDict.contains d n then d else PyDict.set d n n) names).
    cbn [for_]. unfold mbind at 1, M_bind at 1.
    unfold extend_classes, dict_contains, read_dict, dict_setitem.
    unfold mbind at 1 2, M_bind at 1 2, mret, M_ret. rewrite Hd. simpl.
    destruct (PyDict.contains d n).
    + destruct (IH w d Hd) as (w' & Hrun & Hrest). by exists w'.
    + rewrite Hd.
      set (w1 := {| frames := frames w;
                    dicts := <[c := PyDict.set d n n]> (dicts w);
                    cmap_registry := cmap_registry w;
                    plotting_context := plotting_context w;
                    saved := saved w |}).
      destruct (IH w1 (PyDict.set d n n)) as (w' & Hrun & Hd' & Hrest).
      { apply lookup_insert_eq. }
      exists w'. split; [done|]. split; [|done].
      rewrite Hd'. simpl. by rewrite insert_insert_eq.
Qed.

(** A successful pass over the class strips leaves the class map
    extended by the column labels. *)
Lemma mpl_class_strips_Ok f rl cl c w strips w' d :
  mpl_class_strips f rl cl (Some c) w = (Ok strips, w') →
  dicts w !! c = Some d →
  ∃ colnames rownames col_cb row_cb,
    Frame.index_at f cl = Ok colnames ∧
    Frame.index_at f rl = Ok rownames ∧
    dicts w' = <[c := extended d colnames]> (dicts w) ∧
    for_append colnames
      (strip_cell c (class_dict (extended d colnames))) w' = (Ok col_cb, w') ∧
    for_append rownames
      (strip_cell c (class_dict (extended d colnames))) w' = (Ok row_cb, w') ∧
    strips = (Some col_cb, Some row_cb).
Proof.
  unfold mpl_class_strips. intros Hrun Hd.
  inv_bind Hrun colnames w0 Hcol. apply lift_Ok in Hcol as [Hcol ->].
  inv_bind Hrun u w1 Hloop.
  destruct (for_extend_classes_run c colnames w d Hd)
    as (w1' & Hloop' & Hd1 & _).
  assert (w1' = w1) as -> by congruence.
  inv_bind Hrun cd w2 Hcd. apply read_dict_Ok in Hcd as [Hcd ->].
  rewrite Hd1, lookup_insert_eq in Hcd. injection Hcd as <-.
  inv_bind Hrun colnames' w2 Hcol'. apply lift_Ok in Hcol' as [Hcol' ->].
  assert (colnames' = colnames) as -> by congruence.
  inv_bind Hrun col_cb w2 Hcb.
  assert (w2 = w1) as ->.
  { eapply (stable_run same); [|exact Hcb]. stable_auto. }
  inv_bind Hrun rownames w2 Hrow. apply lift_Ok in Hrow as [Hrow ->].
  inv_bind Hrun row_cb w2 Hrb.
  assert (w2 = w1) as ->.
  { eapply (stable_run same); [|exact Hrb]. stable_auto. }
  inv_bind Hrun u1 w2 Hc1.
  apply (stable_run same) in Hc1 as ->; [|apply get_cmap_same].
  inv_bind Hrun u2 w2 Hc2.
  apply (stable_run same) in Hc2 as ->; [|apply get_cmap_same].
  apply ret_Ok in Hrun as [-> ->].
  by exists colnames, rownames, col_cb, row_cb.
Qed.

(** C2, as the code has it. Neither renderer writes to a frame, and
    [heatmap_seaborn] writes to no dictionary. [heatmap_mpl] writes to
    no dictionary but the class map it is given; to that one it only
    adds entries [name -> name] for identifiers without a class, and
    after a successful call these are exactly the identifiers of the
    column leaves that had none; a class map that covers them all is
    left as it was. *)
Theorem inputs_after_call (a : Args) (w : World) :
  frames (heatmap_seaborn a w).2 = frames w ∧
  dicts (heatmap_seaborn a w).2 = dicts w ∧
  frames (heatmap_mpl a w).2 = frames w ∧
  (∀ r, classes a ≠ Some r →
     dicts (heatmap_mpl a w).2 !! r = dicts w !! r) ∧
  (∀ c d, classes a = Some c → dicts w !! c = Some d →
     ∃ names,
       dicts (heatmap_mpl a w).2 !! c = Some (extended d names) ∧
       (∀ k v, PyDict.get d k = Some v →
               PyDict.get (extended d names) k = Some v) ∧
       (∀ k, PyDict.get d k = None →
             PyDict.get (extended d names) k =
             if decide (k ∈ names) then Some k else None)) ∧
  (∀ c d f fig colleaves colnames,
     classes a = Some c → dicts w !! c = Some d →
     frames w !! dfr a = Some f →
     (heatmap_mpl a w).1 = Ok fig →
     cluster_leaves (df_values (Frame.transpose f)) "top" = Ok colleaves →
     Frame.index_at f colleaves = Ok colnames →
     dicts (heatmap_mpl a w).2 = <[c := extended d colnames]> (dicts w) ∧
     ((∀ n, n ∈ colnames → is_Some (PyDict.get d n)) →
      dicts (heatmap_mpl a w).2 = dicts w)).
Proof.
  split_and!.
  - apply heatmap_seaborn_frames.
  - apply heatmap_seaborn_dicts.
  - apply heatmap_mpl_frames.
  - intros r Hr.
    destruct (heatmap_mpl_class_extension a w) as (_ & Hother & _).
    by apply Hother.
  - intros c d Hc Hd.
    destruct (heatmap_mpl_class_extension a w) as (_ & _ & Hext).
    destruct (Hext c d Hc Hd) as [names Hnames].
    exists names. split; [done|]. split.
    + intros k v Hk. by rewrite extended_get, Hk.
    + intros k Hk. by rewrite extended_get, Hk.
  - intros c d f fig colleaves colnames Hc Hd Hf Hfig Hleaves Hnames.
    destruct (heatmap_mpl a w) as [r w'] eqn:Hrun. simpl in Hfig. subst r.
    simpl.
    apply heatmap_mpl_Ok in Hrun
      as (f' & cl & rl & w1 & strips & tl & Hf' & _ & _ & _ & Hcl & _ & _
          & Hstrips & _ & Hdicts & _).
    assert (f' = f) as -> by congruence.
    assert (cl = colleaves) as -> by congruence.
    rewrite Hc in Hstrips.
    destruct (mpl_class_strips_Ok _ _ _ _ _ _ _ _ Hstrips Hd)
      as (colnames' & _ & _ & _ & Hcn & _ & Hd1 & _).
    assert (colnames' = colnames) as -> by congruence.
    rewrite Hdicts, Hd1. split; [done|].
    intros Hall. rewrite extended_id by done. by apply insert_id.
Qed.

End Inputs.

(** The class map of the three genomes knows [a] and [b]; after
    [heatmap_mpl] it also holds [c -> c]. *)
Lemma inputs_after_call_witness :
  dicts (@heatmap_mpl Demo.libs Demo.args Demo.world).2 =
    <[2%nat := extended [("b", "x"); ("a", "y")] ["c"; "b"; "a"]]>
      (dicts Demo.world) ∧
  ((∀ n, n ∈ ["c"; "b"; "a"] →
         is_Some (PyDict.get [("b", "x"); ("a", "y")] n)) →
   dicts (@heatmap_mpl Demo.libs Demo.args Demo.world).2 = dicts Demo.world).
Proof.
  destruct (@inputs_after_call Demo.libs Demo.args Demo.world)
    as (_ & _ & _ & _ & _ & Hok).
  eapply (Hok 2%nat _ Demo.frame _ [2; 1; 0]%nat);
    first [reflexivity | vm_compute; reflexivity].
Defined.

(** C2 as it is worded fails for [heatmap_mpl]: the caller's class map
    has an entry more after the call. *)
Lemma heatmap_mpl_extends_classes :
  dicts Demo.world !! 2%nat = Some [("b", "x"); ("a", "y")] ∧
  dicts (@heatmap_mpl Demo.libs Demo.args Demo.world).2 !! 2%nat =
    Some [("b", "x"); ("a", "y"); ("c", "c")] ∧
  dicts (@heatmap_mpl Demo.libs Demo.args Demo.world).2 ≠ dicts Demo.world.
Proof.
  split; [by vm_compute|]. split; [by vm_compute|].
  intros Heq. apply (f_equal (λ m, m !! 2%nat)) in Heq.
  vm_compute in Heq. discriminate.
Qed.

(** ** Plotting-library globals *)

Section Globals.
Context `{ThirdParty}.

Lemma module_load_run w :
  module_load w =
  (Ok (),
   {| frames := frames w; dicts := dicts w;
      cmap_registry :=
        {[ CMAP_BURD ]} ∪ ({[ CMAP_HADAMARD_BURD ]} ∪
          ({[ CMAP_SPBND_BURD ]} ∪ cmap_registry w));
      plotting_context := plotting_context w;
      saved := saved w |}).
Proof. reflexivity. Qed.

(** Whatever becomes of the call, [heatmap_seaborn] either leaves the
    plotting context or sets it for a frame of 110 rows or more. *)
Lemma heatmap_seaborn_context a w :
  plotting_context (heatmap_seaborn a w).2 = plotting_context w ∨
  ∃ f, frames w !! dfr a = Some f ∧ (110 ≤ Frame.shape0 f)%nat ∧
       plotting_context (heatmap_seaborn a w).2 =
         ("notebook"%string, maxfigsize / calcfigsize (Frame.shape0 f)).
Proof.
  set (ws := (heatmap_seaborn a w).2).
  assert (ws = (heatmap_seaborn a w).2) as Hws by done. clearbody ws.
  unfold heatmap_seaborn in Hws.
  unfold mbind at 1, M_bind at 1 in Hws.
  pose proof (get_cmap_same (cmap a) w) as Hc.
  destruct (get_cmap (cmap a) w) as [[cm|e] w0]; simpl in Hc;
    rewrite Hc in Hws; [|left; by rewrite Hws].
  unfold mbind at 1, M_bind at 1 in Hws. unfold read_frame in Hws.
  destruct (frames w !! dfr a) as [f|] eqn:Hf; simpl in Hws;
    [|left; by rewrite Hws].
  unfold mbind at 1, M_bind at 1 in Hws.
  rewrite seaborn_font_scale_run in Hws.
  match type of Hws with
  | context [(?m ≫= ?k) ?w1] =>
      assert (stable (unchanged plotting_context) (m ≫= k)) as Hrest
  end.
  { stable_with ltac:(first
      [ apply savefig_context
      | apply seaborn_class_colours_stable
      | apply seaborn_labels_stable ]). }
  rewrite Hws, Hrest.
  destruct (decide (110 ≤ Frame.shape0 f)%nat) as [Hn|Hn]; [|by left].
  right. exists f. by rewrite Hrest.
Qed.

(** C3, as the code has it. Importing the module registers the three
    colour maps and changes nothing else; no rendering call writes to
    the registry; [heatmap_mpl] never writes the plotting context;
    [heatmap_seaborn] writes it when, and only when, the frame has 110
    rows or more (the figure has hit its maximum size), setting the
    font scale to [120 / (1.1 * rows)]. *)
Theorem plotting_globals (a : Args) (w : World) :
  cmap_registry (module_load w).2 =
    {[ CMAP_SPBND_BURD; CMAP_HADAMARD_BURD; CMAP_BURD ]} ∪ cmap_registry w ∧
  plotting_context (module_load w).2 = plotting_context w ∧
  cmap_registry (heatmap_seaborn a w).2 = cmap_registry w ∧
  cmap_registry (heatmap_mpl a w).2 = cmap_registry w ∧
  plotting_context (heatmap_mpl a w).2 = plotting_context w ∧
  (plotting_context (heatmap_seaborn a w).2 = plotting_context w ∨
   ∃ f, frames w !! dfr a = Some f ∧ (110 ≤ Frame.shape0 f)%nat ∧
        plotting_context (heatmap_seaborn a w).2 =
          ("notebook"%string, maxfigsize / calcfigsize (Frame.shape0 f))) ∧
  (∀ f fig,
     frames w !! dfr a = Some f → (heatmap_seaborn a w).1 = Ok fig →
     plotting_context (heatmap_seaborn a w).2 =
       if decide (110 ≤ Frame.shape0 f)%nat
       then ("notebook"%string, maxfigsize / calcfigsize (Frame.shape0 f))
       else plotting_context w).
Proof.
  split_and!.
  - rewrite module_load_run. simpl. apply set_eq. intros x.
    rewrite !elem_of_union, !elem_of_singleton. tauto.
  - by rewrite module_load_run.
  - apply heatmap_seaborn_registry.
  - apply heatmap_mpl_registry.
  - apply heatmap_mpl_context.
  - apply heatmap_seaborn_context.
  - intros f fig Hf Hfig.
    destruct (heatmap_seaborn a w) as [r w'] eqn:Hrun. simpl in *. subst r.
    apply heatmap_seaborn_Ok in Hrun
      as (f' & w1 & _ & _ & Hf' & Hfont & _ & _ & Hctx & _).
    assert (f' = f) as -> by congruence.
    rewrite seaborn_font_scale_run in Hfont. injection Hfont as <-.
    rewrite Hctx. by destruct (decide (110 ≤ Frame.shape0 f)%nat).
Qed.

End Globals.

(** On the three genomes [heatmap_seaborn] succeeds and leaves the
    plotting context. *)
Lemma plotting_globals_witness :
  plotting_context (@heatmap_seaborn Demo.libs Demo.args Demo.world).2 =
    if decide (110 ≤ Frame.shape0 Demo.frame)%nat
    then ("notebook"%string, maxfigsize / calcfigsize (Frame.shape0 Demo.frame))
    else plotting_context Demo.world.
Proof.
  destruct (@plotting_globals Demo.libs Demo.args Demo.world)
    as (_ & _ & _ & _ & _ & _ & Hok).
  destruct (@heatmap_seaborn Demo.libs Demo.args Demo.world) as [[fig|e] w']
    eqn:Hrun; [|by vm_compute in Hrun].
  by apply (Hok Demo.frame fig).
Defined.

(** C3 as it is worded fails for [heatmap_seaborn]: on a frame of 110
    rows the call replaces the font scale 1 of the plotting context by
    120/121. *)
Lemma heatmap_seaborn_writes_context :
  plotting_context Demo.big_world = ("notebook"%string, 1) ∧
  plotting_context (@heatmap_seaborn Demo.libs Demo.big_args Demo.big_world).2 =
    ("notebook"%string, 1200 # 1210) ∧
  plotting_context (@heatmap_seaborn Demo.libs Demo.big_args Demo.big_world).2 ≠
    plotting_context Demo.big_world.
Proof.
  split; [reflexivity|]. split; [by vm_compute|].
  intros Heq. vm_compute in Heq. discriminate.
Qed.

(** ** Tick labels *)

Lemma get_default_spec (ld : PyDict.t string) (i : string) :
  PyDict.get_default ld i i = spec_tick_label (Some ld) i.
Proof.
  unfold PyDict.get_default, spec_tick_label. by destruct (PyDict.get ld i).
Qed.

(** The entries the loop of [heatmap_mpl] adds to a dictionary do not
    change the label it gives: they map an identifier to itself. *)
Lemma spec_tick_label_extended d names i :
  spec_tick_label (Some (extended d names)) i = spec_tick_label (Some d) i.
Proof.
  unfold spec_tick_label. rewrite extended_get.
  destruct (PyDict.get d i); [done|]. by destruct (decide (i ∈ names)).
Qed.

Section TickLabels.
Context `{ThirdParty}.

Lemma seaborn_labels_Ok f l w newlabels w' :
  seaborn_labels f l w = (Ok newlabels, w') →
  newlabels = spec_tick_label (l ≫= λ r, dicts w !! r) <$> df_index f.
Proof.
  unfold seaborn_labels. destruct l as [r|]; simpl.
  - intros Hrun. inv_bind Hrun ld w0 Hld.
    apply read_dict_Ok in Hld as [Hld ->].
    apply ret_Ok in Hrun as [-> _]. rewrite Hld.
    apply list_fmap_ext. intros _ i _. apply get_default_spec.
  - intros [-> _]%ret_Ok. by rewrite list_fmap_id.
Qed.

Lemma mpl_ticklabels_Ok f rl cl l w tl w' :
  mpl_ticklabels f rl cl l w = (Ok tl, w') →
  ∃ rownames colnames,
    Frame.index_at f rl = Ok rownames ∧
    Frame.index_at f cl = Ok colnames ∧
    (∀ r, l = Some r → is_Some (dicts w !! r)) ∧
    tl = (spec_tick_label (l ≫= λ r, dicts w !! r) <$> rownames,
          spec_tick_label (l ≫= λ r, dicts w !! r) <$> colnames).
Proof.
  unfold mpl_ticklabels. intros Hrun.
  inv_bind Hrun rownames w0 Hrow. apply lift_Ok in Hrow as [Hrow ->].
  inv_bind Hrun colnames w0 Hcol. apply lift_Ok in Hcol as [Hcol ->].
  exists rownames, colnames. split; [done|]. split; [done|].
  destruct l as [r|]; simpl.
  - inv_bind Hrun ld w0 Hld. apply read_dict_Ok in Hld as [Hld ->].
    rewrite Hld. split; [intros ? [= <-]; by eexists|].
    destruct ld as [|kv ld]; simpl in Hrun.
    + apply ret_Ok in Hrun as [-> _].
      by rewrite !list_fmap_id.
    + apply ret_Ok in Hrun as [-> _]. f_equal;
        apply list_fmap_ext; intros _ i _; apply get_default_spec.
  - split; [done|].
    apply ret_Ok in Hrun as [-> _]. by rewrite !list_fmap_id.
Qed.

Lemma for_extend_classes_dangling c names w :
  dicts w !! c = None → (for_ names (extend_classes c) w).2 = w.
Proof.
  intros Hc. destruct names as [|n names]; [done|].
  cbn [for_]. unfold mbind at 1, M_bind at 1.
  unfold extend_classes, dict_contains, read_dict.
  unfold mbind at 1 2, M_bind at 1 2. by rewrite Hc.
Qed.

Lemma mpl_class_strips_class_extension f rl cl c :
  stable (class_extension c) (mpl_class_strips f rl cl c).
Proof.
  apply mpl_class_strips_stable; [apply _|].
  intros r name ->. apply extend_classes_class_extension.
Qed.

(** A dictionary read after the class strips gives the labels it gave
    before the call, also when it is the class map itself. *)
Lemma label_map_after_strips f rl cl c w strips w1 l ld1 :
  mpl_class_strips f rl cl c w = (Ok strips, w1) →
  dicts w1 !! l = Some ld1 →
  ∃ ld, dicts w !! l = Some ld ∧
        ∀ i, spec_tick_label (Some ld1) i = spec_tick_label (Some ld) i.
Proof.
  intros Hrun Hld1.
  pose proof (stable_run _ _ _ _ _
                (mpl_class_strips_class_extension f rl cl c) Hrun)
    as (_ & Hother & Hext).
  destruct (decide (c = Some l)) as [->|Hne].
  - destruct (dicts w !! l) as [ld|] eqn:Hld.
    + exists ld. split; [done|].
      destruct (Hext l ld eq_refl Hld) as [names Hnames].
      assert (ld1 = extended ld names) as -> by congruence.
      intros i. apply spec_tick_label_extended.
    + exfalso. unfold mpl_class_strips in Hrun.
      inv_bind Hrun colnames w0 Hcol. apply lift_Ok in Hcol as [Hcol ->].
      inv_bind Hrun u w2 Hloop.
      pose proof (for_extend_classes_dangling l colnames w Hld) as Hw2.
      rewrite Hloop in Hw2. simpl in Hw2. subst w2.
      inv_bind Hrun cd w2 Hcd. apply read_dict_Ok in Hcd as [Hcd _].
      congruence.
  - exists ld1. split; [|done]. by rewrite <- Hother.
Qed.

(** C5. In both renderers the tick label of an identifier is the raw
    identifier when no label map is given or the map has no entry for
    it, and the mapped display string otherwise. [heatmap_seaborn]
    labels the identifiers in index order, [heatmap_mpl] in the order
    of the row and of the column leaves. *)
Theorem tick_labels (a : Args) (w : World) (f : DataFrame) :
  frames w !! dfr a = Some f →
  (∀ fig w', heatmap_seaborn a w = (Ok fig, w') →
     cm_xticklabels (sf_call fig) =
       spec_tick_label (label_map a w) <$> df_index f ∧
     cm_yticklabels (sf_call fig) =
       spec_tick_label (label_map a w) <$> df_index f) ∧
  (∀ fig w', heatmap_mpl a w = (Ok fig, w') →
     ∃ rowleaves colleaves rownames colnames,
       cluster_leaves (df_values f) "left" = Ok rowleaves ∧
       cluster_leaves (df_values (Frame.transpose f)) "top" = Ok colleaves ∧
       Frame.index_at f rowleaves = Ok rownames ∧
       Frame.index_at f colleaves = Ok colnames ∧
       mf_yticklabels fig = spec_tick_label (label_map a w) <$> rownames ∧
       mf_xticklabels fig = spec_tick_label (label_map a w) <$> colnames).
Proof.
  intros Hf. split.
  - intros fig w' Hrun.
    apply heatmap_seaborn_Ok in Hrun
      as (f' & w1 & col_cb & newlabels & Hf' & Hfont & _ & Hlab & _ & _ & _ & _
          & _ & Hx & Hy).
    assert (f' = f) as -> by congruence.
    apply seaborn_labels_Ok in Hlab.
    assert (dicts w1 = dicts w) as Hd.
    { rewrite seaborn_font_scale_run in Hfont. injection Hfont as <-.
      by destruct (decide _). }
    rewrite Hd in Hlab. rewrite Hx, Hy. by rewrite Hlab.
  - intros fig w' Hrun.
    apply heatmap_mpl_Ok in Hrun
      as (f' & cl & rl & w1 & strips & tl & Hf' & _ & _ & _ & Hcl & Hrl & _
          & Hstrips & Hlabels & _ & _ & _ & _ & Hy & Hx).
    assert (f' = f) as -> by congruence.
    apply mpl_ticklabels_Ok in Hlabels
      as (rownames & colnames & Hrow & Hcol & Hsome & ->).
    assert (∀ i, spec_tick_label (labels a ≫= λ r, dicts w1 !! r) i =
                 spec_tick_label (label_map a w) i) as Hsame.
    { intros i. unfold label_map.
      destruct (labels a) as [l|]; simpl; [|done].
      destruct (Hsome l eq_refl) as [ld1 Hld1]. rewrite Hld1.
      destruct (label_map_after_strips _ _ _ _ _ _ _ _ _ Hstrips Hld1)
        as (ld & -> & Heq). apply Heq. }
    exists rl, cl, rownames, colnames. split_and!; try done.
    + rewrite Hy. simpl. apply list_fmap_ext. intros _ i _. apply Hsame.
    + rewrite Hx. simpl. apply list_fmap_ext. intros _ i _. apply Hsame.
Qed.

End TickLabels.

(** ** Class colours of [heatmap_seaborn] *)

Lemma zip_keys_elem {A} (l : list string) (k : list A) x :
  x ∈ (zip l k).*1 → x ∈ l.
Proof.
  revert k. induction l as [|y l IH]; intros [|c k]; simpl;
    try (by intros ?%elem_of_nil).
  intros [->|Hx]%elem_of_cons; apply elem_of_cons; [by left|right; eauto].
Qed.

Lemma zip_keys_NoDup {A} (l : list string) (k : list A) :
  NoDup l → NoDup (zip l k).*1.
Proof.
  revert k. induction l as [|y l IH]; intros [|c k] Hnd; simpl;
    try apply NoDup_nil_2.
  apply NoDup_cons in Hnd as [Hy Hnd]. apply NoDup_cons. split; [|by apply IH].
  intros Hin. by apply Hy, (zip_keys_elem l k).
Qed.


Section Palette.
Context `{ThirdParty}.


Lemma sorted_levels_elem cd v :
  v ∈ sorted_levels cd ↔ v ∈ PyDict.values cd.
Proof.
  unfold sorted_levels. rewrite merge_sort_Permutation.
  by rewrite elem_of_elements, elem_of_list_to_set.
Qed.

Lemma sorted_levels_NoDup cd : NoDup (sorted_levels cd).
Proof.
  unfold sorted_levels. rewrite merge_sort_Permutation. apply NoDup_elements.
Qed.



Lemma palette_dict_items levels :
  NoDup levels →
  PyDict.items (palette_dict levels) =
  zip levels (cubehelix_palette (length levels)).
Proof.
  intros Hnd. unfold palette_dict, PyDict.items.
  apply PyDictFacts.of_items_NoDup. by apply zip_keys_NoDup.
Qed.


Lemma palette_dict_wf levels : NoDup levels → PyDict.wf (palette_dict levels).
Proof.
  intros Hnd. unfold PyDict.wf, PyDict.keys.
  pose proof (palette_dict_items levels Hnd) as Hitems.
  unfold PyDict.items in Hitems. rewrite Hitems. by apply zip_keys_NoDup.
Qed.

(** The dictionary from identifier to colour, once built. *)
Lemma level_palette_get paldict items : ∀ acc lvl_pal cls,
  level_palette paldict items acc = Ok lvl_pal →
  PyDict.get lvl_pal cls =
  match PyDict.get (reverse items) cls with
  | Some lvl => PyDict.get paldict lvl
  | None => PyDict.get acc cls
  end.
Proof.
  induction items as [|[c l] items IH]; intros acc lvl_pal cls Hrun; simpl in *.
  - by injection Hrun as ->.
  - destruct (PyDict.get paldict l) as [col|] eqn:Hl; [|done].
    rewrite (IH _ _ _ Hrun), reverse_cons, PyDictFacts.get_app. simpl.
    destruct (PyDict.get (reverse items) cls); [done|].
    rewrite PyDictFacts.get_set.
    destruct (decide (c = cls)); by simplify_eq.
Qed.

Lemma level_palette_found paldict items : ∀ acc lvl_pal,
  level_palette paldict items acc = Ok lvl_pal →
  ∀ lvl, lvl ∈ items.*2 → is_Some (PyDict.get paldict lvl).
Proof.
  induction items as [|[c l] items IH]; intros acc lvl_pal Hrun lvl Hin;
    simpl in *.
  - by apply elem_of_nil in Hin.
  - destruct (PyDict.get paldict l) as [col|] eqn:Hl; [|done].
    apply elem_of_cons in Hin as [->|Hin]; [by eexists|].
    by eapply IH.
Qed.

Lemma get_reverse_wf {V} (d : PyDict.t V) k :
  PyDict.wf d → PyDict.get (reverse d) k = PyDict.get d k.
Proof.
  intros Hwf. destruct (PyDict.get d k) as [v|] eqn:Hd.
  - apply PyDictFacts.elem_get_Some.
    + unfold PyDict.wf, PyDict.keys. rewrite fmap_reverse.
      by rewrite reverse_Permutation.
    + apply elem_of_reverse. by apply PyDictFacts.get_Some_elem.
  - apply PyDictFacts.get_None_keys. apply PyDictFacts.get_None_keys in Hd.
    unfold PyDict.keys in *. by rewrite fmap_reverse, elem_of_reverse.
Qed.

Lemma seaborn_class_colours_Ok f c w col_cb w' cd :
  seaborn_class_colours f (Some c) w = (Ok col_cb, w') →
  dicts w !! c = Some cd → PyDict.wf cd →
  let paldict := palette_dict (sorted_levels cd) in
  (∀ lvl, lvl ∈ PyDict.values cd → is_Some (PyDict.get paldict lvl)) ∧
  col_cb =
    Some ((λ i, lvl ← PyDict.get cd i; PyDict.get paldict lvl) <$> df_index f).
Proof.
  intros Hrun Hcd Hwf paldict. unfold seaborn_class_colours in Hrun.
  inv_bind Hrun cd' w0 Hcd'. apply read_dict_Ok in Hcd' as [Hcd' ->].
  assert (cd' = cd) as -> by congruence.
  inv_bind Hrun lvl_pal w0 Hpal. apply lift_Ok in Hpal as [Hpal ->].
  apply ret_Ok in Hrun as [-> _]. split.
  - intros lvl Hlvl. by eapply level_palette_found.
  - f_equal. apply list_fmap_ext. intros _ i _.
    rewrite (level_palette_get _ _ _ _ _ Hpal). unfold PyDict.items.
    rewrite get_reverse_wf by done.
    by destruct (PyDict.get cd i).
Qed.

End Palette.


(** ** Class strips *)

Lemma of_items_wf {V} (kvs : list (string * V)) : PyDict.wf (PyDict.of_items kvs).
Proof.
  unfold PyDict.of_items.
  assert (∀ acc : PyDict.t V, PyDict.wf acc →
            PyDict.wf (foldl (λ d kv, PyDict.set d kv.1 kv.2) acc kvs)) as Hgen.
  { induction kvs as [|kv kvs IH]; intros acc Hacc; simpl; [done|].
    apply IH. by apply PyDictFacts.set_wf. }
  apply Hgen. apply NoDup_nil_2.
Qed.

Lemma keys_is_Some {V} (d : PyDict.t V) k :
  k ∈ PyDict.keys d ↔ is_Some (PyDict.get d k).
Proof.
  pose proof (PyDictFacts.get_None_keys d k) as Hnone.
  destruct (PyDict.get d k) as [v|].
  - split; [by eexists|]. intros _.
    destruct (decide (k ∈ PyDict.keys d)) as [|Hout]; [done|].
    by apply Hnone in Hout.
  - split; [|by intros [? ?]]. intros Hin. by apply Hnone in Hin.
Qed.

Lemma of_items_keys {V} (kvs : list (string * V)) k :
  k ∈ PyDict.keys (PyDict.of_items kvs) ↔ k ∈ kvs.*1.
Proof.
  rewrite keys_is_Some, PyDictFacts.get_of_items, <- keys_is_Some.
  unfold PyDict.keys. by rewrite fmap_reverse, elem_of_reverse.
Qed.

(** A list read off position by position from a permutation of the
    positions is a permutation of the list read off the positions. *)
Lemma Forall2_omap {A B} (g : A → option B) l k :
  Forall2 (λ x y, g x = Some y) l k → omap g l = k.
Proof.
  induction 1 as [|x y l k Hxy _ IH]; [done|].
  simpl. rewrite Hxy. f_equal. exact IH.
Qed.

Lemma Forall2_fun_Permutation {A B} (g : A → option B) l l' k k' :
  Forall2 (λ x y, g x = Some y) l k →
  Forall2 (λ x y, g x = Some y) l' k' →
  l ≡ₚ l' → k ≡ₚ k'.
Proof.
  intros <-%Forall2_omap <-%Forall2_omap Hperm. by rewrite Hperm.
Qed.

Lemma take_Ok_Forall2 {A} (xs : list A) positions ys :
  Frame.take xs positions = Ok ys →
  Forall2 (λ i y, xs !! i = Some y) positions ys.
Proof. unfold Frame.take. intros Hm%of_option_Ok. by apply mapM_Some. Qed.

Lemma omap_lookup_seq {A} (l : list A) : ∀ k,
  omap (λ i, (k ++ l) !! i) (seq (length k) (length l)) = l.
Proof.
  induction l as [|x l IH]; intros k; [done|]. simpl.
  rewrite list_lookup_middle by done. f_equal.
  specialize (IH (k ++ [x])).
  rewrite length_app, <- app_assoc in IH. simpl in IH.
  by rewrite Nat.add_1_r in IH.
Qed.

(** Taking the items of a list at a permutation of all its positions
    gives a permutation of the list. *)
Lemma take_order_Permutation {A} (xs : list A) leaves ys :
  is_order (length xs) leaves → Frame.take xs leaves = Ok ys → ys ≡ₚ xs.
Proof.
  unfold is_order. intros Hperm Htake%take_Ok_Forall2.
  apply Forall2_omap in Htake as <-. rewrite Hperm.
  pose proof (omap_lookup_seq xs []) as Hall. simpl in Hall.
  by rewrite Hall.
Qed.

Section ClassStrips.
Context `{ThirdParty}.

(** The number of a class is a position at which the class occurs
    among the values of the class map. *)
Lemma class_dict_get cd cls idx :
  PyDict.get (class_dict cd) cls = Some idx →
  PyDict.values cd !! idx = Some cls.
Proof.
  unfold class_dict. rewrite PyDictFacts.get_of_items.
  intros Hin%PyDictFacts.get_Some_elem. rewrite elem_of_reverse in Hin.
  apply list_elem_of_lookup in Hin as [i Hi].
  rewrite list_lookup_imap in Hi.
  destruct (PyDict.values cd !! i) as [x|] eqn:Hx; simpl in Hi; [|done].
  by injection Hi as -> ->.
Qed.

Lemma class_dict_keys cd cls :
  cls ∈ PyDict.keys (class_dict cd) ↔ cls ∈ PyDict.values cd.
Proof.
  unfold class_dict. rewrite of_items_keys. split.
  - intros [[c i] [-> Hin]]%list_elem_of_fmap. simpl.
    apply list_elem_of_lookup in Hin as [j Hj].
    rewrite list_lookup_imap in Hj.
    destruct (PyDict.values cd !! j) as [x|] eqn:Hx; simpl in Hj; [|done].
    injection Hj as -> _. by eapply list_elem_of_lookup_2.
  - intros [j Hj]%list_elem_of_lookup.
    apply list_elem_of_fmap. exists (cls, j). split; [done|].
    apply list_elem_of_lookup. exists j.
    by rewrite list_lookup_imap, Hj.
Qed.

Lemma class_dict_is_Some cd cls :
  cls ∈ PyDict.values cd → is_Some (PyDict.get (class_dict cd) cls).
Proof.
  intros Hin%class_dict_keys.
  destruct (PyDict.get (class_dict cd) cls) eqn:Hget; [by eexists|].
  by apply PyDictFacts.get_None_keys in Hget.
Qed.

Lemma strip_cell_run c classdict name w d :
  dicts w !! c = Some d →
  strip_cell c classdict name w =
  (of_option KeyError (strip_value d classdict name), w).
Proof.
  intros Hd. unfold strip_cell, try_except, dict_getitem, read_dict, strip_value.
  unfold mbind at 1 2, M_bind at 1 2, lift. rewrite Hd. simpl.
  destruct (PyDict.get d name) as [cls|]; simpl; [|done].
  by destruct (PyDict.get classdict cls).
Qed.

Lemma for_append_strip_cell_Ok c classdict names : ∀ w cb w' d,
  dicts w !! c = Some d →
  for_append names (strip_cell c classdict) w = (Ok cb, w') →
  Forall2 (λ name v, strip_value d classdict name = Some v) names cb.
Proof.
  induction names as [|n names IH]; intros w cb w' d Hd Hrun; simpl in Hrun.
  - apply ret_Ok in Hrun as [-> _]. constructor.
  - inv_bind Hrun v w0 Hv. rewrite (strip_cell_run _ _ _ _ _ Hd) in Hv.
    injection Hv as Hv <-. apply of_option_Ok in Hv.
    inv_bind Hrun cb' w1 Hcb. apply ret_Ok in Hrun as [-> _].
    constructor; [done|]. by eapply IH.
Qed.

(** C6. With a class map, every class value has exactly one entry in
    the dictionary of colours ([heatmap_seaborn]) or of class numbers
    ([heatmap_mpl], where different classes have different numbers),
    and an identifier has the same colour, or number, in the row strip
    as in the column strip. In [heatmap_mpl] the two strips hold the
    same numbers, up to order, when the row leaves are a permutation of
    the column leaves: the colour scale fitted to each strip is then the
    same. *)
Theorem class_strips (a : Args) (w : World) (c : loc) (cd : PyDict.t string) :
  classes a = Some c → dicts w !! c = Some cd → PyDict.wf cd →
  (∀ fig w', heatmap_seaborn a w = (Ok fig, w') →
     ∃ f, frames w !! dfr a = Some f ∧
       let paldict := palette_dict (sorted_levels cd) in
       PyDict.wf paldict ∧
       (∀ lvl, lvl ∈ PyDict.values cd ↔ lvl ∈ PyDict.keys paldict) ∧
       cm_col_colors (sf_call fig) =
         Some ((λ i, lvl ← PyDict.get cd i; PyDict.get paldict lvl)
                 <$> df_index f) ∧
       cm_row_colors (sf_call fig) = cm_col_colors (sf_call fig)) ∧
  (∀ fig w', heatmap_mpl a w = (Ok fig, w') →
     ∃ f rowleaves colleaves rownames colnames row_cb col_cb,
       frames w !! dfr a = Some f ∧
       cluster_leaves (df_values f) "left" = Ok rowleaves ∧
       cluster_leaves (df_values (Frame.transpose f)) "top" = Ok colleaves ∧
       Frame.index_at f rowleaves = Ok rownames ∧
       Frame.index_at f colleaves = Ok colnames ∧
       mf_row_cb fig = Some row_cb ∧
       mf_col_cb fig = Some col_cb ∧
       let cd' := extended cd colnames in
       let classdict := class_dict cd' in
       PyDict.wf classdict ∧
       (∀ cls, cls ∈ PyDict.values cd' ↔ cls ∈ PyDict.keys classdict) ∧
       (∀ cls1 cls2 idx,
          PyDict.get classdict cls1 = Some idx →
          PyDict.get classdict cls2 = Some idx → cls1 = cls2) ∧
       Forall2 (λ name v, strip_value cd' classdict name = Some v)
               rownames row_cb ∧
       Forall2 (λ name v, strip_value cd' classdict name = Some v)
               colnames col_cb ∧
       (∀ i j name,
          rownames !! i = Some name → colnames !! j = Some name →
          row_cb !! i = col_cb !! j) ∧
       (rowleaves ≡ₚ colleaves → row_cb ≡ₚ col_cb)).
Proof.
  intros Hc Hcd Hwf. split.
  - intros fig w' Hrun.
    apply heatmap_seaborn_Ok in Hrun
      as (f & w1 & col_cb & nl & Hf & Hfont & Hcol & _ & _ & _ & _ & Hcc & Hrc & _).
    exists f. split; [done|].
    rewrite seaborn_font_scale_run in Hfont. injection Hfont as <-.
    rewrite Hc in Hcol.
    apply seaborn_class_colours_Ok with (cd := cd) in Hcol as [Hfound ->];
      [|by destruct (decide _)|done].
    intros paldict. split_and!.
    + apply palette_dict_wf, sorted_levels_NoDup.
    + intros lvl. split.
      * intros Hin. apply keys_is_Some. by apply Hfound.
      * intros Hin. apply sorted_levels_elem.
        unfold paldict, PyDict.keys in Hin.
        pose proof (palette_dict_items _ (sorted_levels_NoDup cd)) as Hitems.
        unfold PyDict.items in Hitems. rewrite Hitems in Hin.
        by eapply zip_keys_elem.
    + done.
    + by rewrite Hrc, Hcc.
  - intros fig w' Hrun.
    apply heatmap_mpl_Ok in Hrun
      as (f & cl & rl & w1 & strips & tl & Hf & _ & _ & _ & Hcl & Hrl & _
          & Hstrips & _ & _ & _ & Hccb & Hrcb & _).
    rewrite Hc in Hstrips.
    destruct (mpl_class_strips_Ok _ _ _ _ _ _ _ _ Hstrips Hcd)
      as (colnames & rownames & col_cb & row_cb & Hcn & Hrn & Hd1 & Hcol & Hrow
          & ->).
    exists f, rl, cl, rownames, colnames, row_cb, col_cb.
    split_and!; try done.
    assert (dicts w1 !! c = Some (extended cd colnames)) as Hd1'.
    { rewrite Hd1. apply lookup_insert_eq. }
    pose proof (for_append_strip_cell_Ok _ _ _ _ _ _ _ Hd1' Hrow) as Hrows.
    pose proof (for_append_strip_cell_Ok _ _ _ _ _ _ _ Hd1' Hcol) as Hcols.
    intros cd' classdict. split_and!.
    + apply of_items_wf.
    + intros cls. unfold classdict. by rewrite class_dict_keys.
    + unfold classdict.
      intros cls1 cls2 idx H1%class_dict_get H2%class_dict_get. congruence.
    + done.
    + done.
    + intros i j name Hi Hj.
      destruct (Forall2_lookup_l _ _ _ _ _ Hrows Hi) as (v1 & -> & Hv1).
      destruct (Forall2_lookup_l _ _ _ _ _ Hcols Hj) as (v2 & -> & Hv2).
      congruence.
    + intros Hperm.
      apply (Forall2_fun_Permutation _ _ _ _ _ Hrows Hcols).
      apply (Forall2_fun_Permutation _ _ _ _ _
               (take_Ok_Forall2 _ _ _ Hrn) (take_Ok_Forall2 _ _ _ Hcn) Hperm).
Qed.

End ClassStrips.

(** ** The heatmap matrix *)

Lemma ix_Ok f rows cols g :
  Frame.ix f rows cols = Ok g →
  Frame.index_at f rows = Ok (df_index g) ∧
  Frame.take (df_columns f) cols = Ok (df_columns g) ∧
  length (df_values g) = length rows ∧
  (∀ i j ri cj,
     rows !! i = Some ri → cols !! j = Some cj →
     cell g i j = cell f ri cj ∧ is_Some (cell f ri cj)).
Proof.
  unfold Frame.ix, Frame.index_at, Frame.take. intros Hix%of_option_Ok.
  destruct (mapM (λ i, df_index f !! i) rows) as [idx|] eqn:Hidx; [|done].
  destruct (mapM (λ j, df_columns f !! j) cols) as [col|] eqn:Hcol; [|done].
  simpl in Hix.
  destruct (mapM (λ i, r ← df_values f !! i; mapM (λ j, r !! j) cols) rows)
    as [val|] eqn:Hval; [|done].
  simpl in Hix. injection Hix as <-. simpl.
  apply mapM_Some in Hval.
  split; [done|]. split; [done|]. split.
  - symmetry. by eapply Forall2_length.
  - intros i j ri cj Hi Hj. unfold cell. simpl.
    destruct (Forall2_lookup_l _ _ _ _ _ Hval Hi) as (row' & -> & Hrow').
    destruct (df_values f !! ri) as [r|]; [|done]. simpl in *.
    apply mapM_Some in Hrow'.
    destruct (Forall2_lookup_l _ _ _ _ _ Hrow' Hj) as (x & -> & ->).
    split; [done|by eexists].
Qed.

Lemma transpose_cell f i j :
  Frame.wf f →
  (i < length (df_values f))%nat → (j < length (df_columns f))%nat →
  cell (Frame.transpose f) j i = cell f i j.
Proof.
  intros [_ Hrows] Hi Hj. unfold cell, Frame.transpose. simpl.
  rewrite list_lookup_fmap, lookup_seq_lt by done. simpl.
  rewrite list_lookup_fmap.
  destruct (lookup_lt_is_Some_2 (df_values f) i Hi) as [r Hr].
  rewrite Hr. simpl.
  assert (length r = length (df_columns f)) as Hlen.
  { eapply Forall_forall in Hrows; [exact Hrows|].
    by eapply list_elem_of_lookup_2. }
  destruct (lookup_lt_is_Some_2 r j ltac:(lia)) as [x ->]. done.
Qed.

Section Heatmap.
Context `{ThirdParty}.

Lemma cluster_leaves_Ok x orientation leaves :
  cluster_leaves x orientation = Ok leaves →
  ∃ d z, pdist x = Ok d ∧
         linkage (squareform d) "complete" = Ok z ∧
         dendrogram z orientation = Ok leaves.
Proof.
  unfold cluster_leaves. destruct (pdist x) as [d|]; [|done].
  destruct (linkage (squareform d) "complete") as [z|] eqn:Hz; [|done].
  intros Hleaves. by exists d, z.
Qed.

(** C9. The matrix drawn by [heatmap_mpl] is the input matrix with its
    rows taken in the order of the row leaves and its columns in the
    order of the column leaves. The row leaves come from the dendrogram
    of the complete linkage of the pairwise distances between the rows,
    the column leaves from the same computation on the transposed
    matrix, whose rows are the columns of the input. When the leaves
    are an ordering of all positions, as those of a dendrogram are, the
    labels drawn are a rearrangement of the labels of the input. *)
Theorem heatmap_reordered (a : Args) (w : World) (f : DataFrame)
    (fig : MplFigure) (w' : World) :
  frames w !! dfr a = Some f →
  heatmap_mpl a w = (Ok fig, w') →
  ∃ rowd rowz rowleaves cold colz colleaves,
    pdist (df_values f) = Ok rowd ∧
    linkage (squareform rowd) "complete" = Ok rowz ∧
    dendrogram rowz "left" = Ok rowleaves ∧
    pdist (df_values (Frame.transpose f)) = Ok cold ∧
    linkage (squareform cold) "complete" = Ok colz ∧
    dendrogram colz "top" = Ok colleaves ∧
    (Frame.wf f → ∀ i j,
       (i < length (df_values f))%nat → (j < length (df_columns f))%nat →
       cell (Frame.transpose f) j i = cell f i j) ∧
    Frame.ix f rowleaves colleaves = Ok (mf_heatmap fig) ∧
    Frame.index_at f rowleaves = Ok (df_index (mf_heatmap fig)) ∧
    Frame.take (df_columns f) colleaves = Ok (df_columns (mf_heatmap fig)) ∧
    length (df_values (mf_heatmap fig)) = length rowleaves ∧
    (∀ i j ri cj,
       rowleaves !! i = Some ri → colleaves !! j = Some cj →
       cell (mf_heatmap fig) i j = cell f ri cj ∧ is_Some (cell f ri cj)) ∧
    (is_order (length (df_index f)) rowleaves →
     df_index (mf_heatmap fig) ≡ₚ df_index f) ∧
    (is_order (length (df_columns f)) colleaves →
     df_columns (mf_heatmap fig) ≡ₚ df_columns f).
Proof.
  intros Hf Hrun.
  apply heatmap_mpl_Ok in Hrun
    as (f' & cl & rl & w1 & strips & tl & Hf' & _ & _ & _ & Hcl & Hrl & Hix & _).
  assert (f' = f) as -> by congruence.
  apply cluster_leaves_Ok in Hcl as (cold & colz & Hcd & Hcz & Hcleaves).
  apply cluster_leaves_Ok in Hrl as (rowd & rowz & Hrd & Hrz & Hrleaves).
  exists rowd, rowz, rl, cold, colz, cl.
  destruct (ix_Ok _ _ _ _ Hix) as (Hidx & Hcols & Hlen & Hcell).
  split_and!; try done.
  - intros Hwf i j Hi Hj. by apply transpose_cell.
  - intros Horder. by eapply take_order_Permutation.
  - intros Horder. by eapply take_order_Permutation.
Qed.

End Heatmap.

(** ** The theorems at work on the three genomes *)

Lemma tick_labels_witness :
  ∃ figs ws figm wm,
    @heatmap_seaborn Demo.libs Demo.args Demo.world = (Ok figs, ws) ∧
    @heatmap_mpl Demo.libs Demo.alias_args Demo.world = (Ok figm, wm) ∧
    cm_xticklabels (@sf_call Demo.libs figs) = ["Genome A"; "b"; "c"] ∧
    mf_yticklabels figm = ["c"; "x"; "y"] ∧
    mf_xticklabels figm = ["c"; "x"; "y"].
Proof.
  destruct (@tick_labels Demo.libs Demo.args Demo.world Demo.frame eq_refl)
    as [Hs _].
  destruct (@tick_labels Demo.libs Demo.alias_args Demo.world Demo.frame eq_refl)
    as [_ Hm].
  destruct (@heatmap_seaborn Demo.libs Demo.args Demo.world)
    as [[figs|e] ws] eqn:Es; [|by vm_compute in Es].
  destruct (@heatmap_mpl Demo.libs Demo.alias_args Demo.world)
    as [[figm|e] wm] eqn:Em; [|by vm_compute in Em].
  exists figs, ws, figm, wm. split; [done|]. split; [done|].
  destruct (Hs figs ws eq_refl) as [Hx _].
  destruct (Hm figm wm eq_refl)
    as (rl & cl & rn & cn & Hrl & Hcl & Hrn & Hcn & Hy' & Hx').
  vm_compute in Hrl, Hcl.
  assert (rl = [2; 1; 0]%nat) as -> by congruence.
  assert (cl = [2; 1; 0]%nat) as -> by congruence.
  vm_compute in Hrn, Hcn.
  assert (rn = ["c"; "b"; "a"]) as -> by congruence.
  assert (cn = ["c"; "b"; "a"]) as -> by congruence.
  split; [exact Hx|]. split; [exact Hy'|exact Hx'].
Defined.

Lemma class_strips_witness :
  ∃ figs ws figm wm row_cb col_cb,
    @heatmap_seaborn Demo.libs Demo.args Demo.world = (Ok figs, ws) ∧
    @heatmap_mpl Demo.libs Demo.args Demo.world = (Ok figm, wm) ∧
    cm_row_colors (@sf_call Demo.libs figs) =
      cm_col_colors (@sf_call Demo.libs figs) ∧
    mf_row_cb figm = Some row_cb ∧
    mf_col_cb figm = Some col_cb ∧
    ∀ i j name,
      ["c"; "b"; "a"] !! i = Some name → ["c"; "b"; "a"] !! j = Some name →
      row_cb !! i = col_cb !! j.
Proof.
  assert (PyDict.wf [("b", "x"); ("a", "y")]) as Hwf.
  { unfold PyDict.wf. simpl. apply (bool_decide_unpack _). by vm_compute. }
  destruct (@class_strips Demo.libs Demo.args Demo.world 2%nat
              [("b", "x"); ("a", "y")] eq_refl eq_refl Hwf) as [Hs Hm].
  destruct (@heatmap_seaborn Demo.libs Demo.args Demo.world)
    as [[figs|e] ws] eqn:Es; [|by vm_compute in Es].
  destruct (@heatmap_mpl Demo.libs Demo.args Demo.world)
    as [[figm|e] wm] eqn:Em; [|by vm_compute in Em].
  destruct (Hs figs ws eq_refl) as (f & _ & _ & _ & _ & Hrow).
  destruct (Hm figm wm eq_refl)
    as (f' & rl & cl & rn & cn & row_cb & col_cb & Hf' & Hrl & Hcl & Hrn & Hcn
        & Hrcb & Hccb & _ & _ & _ & _ & _ & Hsame & _).
  change (Some Demo.frame = Some f') in Hf'.
  assert (f' = Demo.frame) as -> by congruence.
  vm_compute in Hrl, Hcl.
  assert (rl = [2; 1; 0]%nat) as -> by congruence.
  assert (cl = [2; 1; 0]%nat) as -> by congruence.
  vm_compute in Hrn, Hcn.
  assert (rn = ["c"; "b"; "a"]) as -> by congruence.
  assert (cn = ["c"; "b"; "a"]) as -> by congruence.
  exists figs, ws, figm, wm, row_cb, col_cb.
  split; [reflexivity|]. split; [reflexivity|]. split; [exact Hrow|].
  split; [exact Hrcb|]. split; [exact Hccb|exact Hsame].
Defined.


Lemma heatmap_reordered_witness :
  ∃ figm wm rowleaves colleaves,
    @heatmap_mpl Demo.libs Demo.args Demo.world = (Ok figm, wm) ∧
    Frame.ix Demo.frame rowleaves colleaves = Ok (mf_heatmap figm) ∧
    ∀ i j ri cj,
      rowleaves !! i = Some ri → colleaves !! j = Some cj →
      cell (mf_heatmap figm) i j = cell Demo.frame ri cj ∧
      is_Some (cell Demo.frame ri cj).
Proof.
  destruct (@heatmap_mpl Demo.libs Demo.args Demo.world)
    as [[figm|e] wm] eqn:Em; [|by vm_compute in Em].
  destruct (@heatmap_reordered Demo.libs Demo.args Demo.world Demo.frame
              figm wm eq_refl Em)
    as (rowd & rowz & rl & cold & colz & cl & _ & _ & _ & _ & _ & _ & _ & Hix
        & _ & _ & _ & Hcell & _).
  exists figm, wm, rl, cl. split; [reflexivity|]. split; [exact Hix|exact Hcell].
Defined.

(** * Further properties *)

(** ** Running computations forward *)

Lemma bind_run_Ok {A B} (m : M A) (k : A → M B) w a w1 :
  m w = (Ok a, w1) → (m ≫= k) w = k a w1.
Proof. intros Hm. unfold mbind, M_bind. by rewrite Hm. Qed.

Lemma bind_run_Raise {A B} (m : M A) (k : A → M B) w e w1 :
  m w = (Raise e, w1) → (m ≫= k) w = (Raise e, w1).
Proof. intros Hm. unfold mbind, M_bind. by rewrite Hm. Qed.

Lemma read_frame_run r w f :
  frames w !! r = Some f → read_frame r w = (Ok f, w).
Proof. intros Hf. unfold read_frame. by rewrite Hf. Qed.

Lemma read_dict_run r w d :
  dicts w !! r = Some d → read_dict r w = (Ok d, w).
Proof. intros Hd. unfold read_dict. by rewrite Hd. Qed.

Lemma world_eq (w w' : World) :
  frames w = frames w' → dicts w = dicts w' →
  cmap_registry w = cmap_registry w' →
  plotting_context w = plotting_context w' →
  saved w = saved w' → w = w'.
Proof. destruct w, w'. simpl. by intros -> -> -> -> ->. Qed.

Lemma savefig_opt_run out w :
  from_option savefig (mret ()) (str_truthy out) w =
  (Ok (), with_saved w (saved_after out w)).
Proof.
  unfold saved_after, with_saved.
  destruct (str_truthy out) as [path|]; simpl; [done|].
  unfold mret, M_ret. f_equal. by destruct w.
Qed.

Lemma get_cmap_run `{ThirdParty} name w :
  get_cmap name w = ((get_cmap name w).1, w).
Proof. unfold get_cmap. by destruct name. Qed.


Lemma get_cmap_unknown `{ThirdParty} n w :
  n ∉ cmap_registry w → get_cmap (Some n) w = (Raise ValueError, w).
Proof. intros Hn. unfold get_cmap. by rewrite decide_False. Qed.

Lemma get_cmap_registry `{ThirdParty} name w w' :
  cmap_registry w' = cmap_registry w →
  (get_cmap name w').1 = (get_cmap name w).1.
Proof. intros Hreg. unfold get_cmap. destruct name; [|done]. by rewrite Hreg. Qed.

(** ** The shape of the figure size *)










(** ** Cleaning an axis *)

(** X4. [clean_axis] leaves an axis without ticks and with every spine
    invisible; it neither adds nor drops a spine nor touches a line
    width, and cleaning a clean axis changes nothing. *)
Theorem clean_axis_spec (axis : Axis) :
  ax_xticks (clean_axis axis) = [] ∧
  ax_yticks (clean_axis axis) = [] ∧
  dom (ax_spines (clean_axis axis)) = dom (ax_spines axis) ∧
  (∀ n, ax_spines (clean_axis axis) !! n =
        set_visible false <$> ax_spines axis !! n) ∧
  (∀ n s, ax_spines (clean_axis axis) !! n = Some s →
          spine_visible s = false ∧
          ∃ s0, ax_spines axis !! n = Some s0 ∧
                spine_linewidth s = spine_linewidth s0) ∧
  clean_axis (clean_axis axis) = clean_axis axis.
Proof.
  split_and!; try done.
  - unfold clean_axis. simpl. apply dom_fmap_L.
  - intros n. unfold clean_axis. simpl. apply lookup_fmap.
  - intros n s. unfold clean_axis. simpl. rewrite lookup_fmap.
    destruct (ax_spines axis !! n) as [s0|]; simpl; [|done].
    intros [= <-]. split; [done|]. by exists s0.
  - unfold clean_axis. simpl. f_equal.
    rewrite <- map_fmap_compose. apply map_fmap_ext.
    intros n s _. by destruct s.
Qed.

Lemma clean_axis_spec_witness :
  ax_spines
    (clean_axis {| ax_xticks := [1; 2]; ax_yticks := [3];
                   ax_spines := {[ "left" := {| spine_visible := true;
                                                spine_linewidth := 1 |} ]} |})
    !! "left" =
  Some {| spine_visible := false; spine_linewidth := 1 |}.
Proof.
  destruct (clean_axis_spec
              {| ax_xticks := [1; 2]; ax_yticks := [3];
                 ax_spines := {[ "left" := {| spine_visible := true;
                                              spine_linewidth := 1 |} ]} |})
    as (_ & _ & _ & Hlookup & _).
  rewrite (Hlookup "left"). reflexivity.
Defined.

(** ** Exceptions *)

Section Exceptions.
Context `{ThirdParty}.

(** X5. A colour-map name that is not registered makes both renderers
    raise with the world untouched: [heatmap_seaborn] raises
    [ValueError] at once, [heatmap_mpl] raises it once the frame and the
    bounds of the colour scale are there. *)
Theorem unknown_colour_map (a : Args) (w : World) (n : string) :
  cmap a = Some n → n ∉ cmap_registry w →
  heatmap_seaborn a w = (Raise ValueError, w) ∧
  (∃ e, heatmap_mpl a w = (Raise e, w)) ∧
  (∀ f lo hi,
     frames w !! dfr a = Some f →
     effective_vmin a f = Ok lo → effective_vmax a f = Ok hi →
     heatmap_mpl a w = (Raise ValueError, w)).
Proof.
  intros Hc Hn.
  assert (get_cmap (cmap a) w = (Raise ValueError, w)) as Hget.
  { rewrite Hc. by apply get_cmap_unknown. }
  assert (∀ f lo hi,
            frames w !! dfr a = Some f →
            effective_vmin a f = Ok lo → effective_vmax a f = Ok hi →
            heatmap_mpl a w = (Raise ValueError, w)) as Hmpl.
  { intros f lo hi Hf Hlo Hhi. unfold heatmap_mpl.
    rewrite (bind_run_Ok _ _ _ _ _ (read_frame_run _ _ _ Hf)).
    unfold lift at 1. rewrite Hlo.
    rewrite (bind_run_Ok _ _ w lo w) by done.
    unfold lift at 1. rewrite Hhi.
    rewrite (bind_run_Ok _ _ w hi w) by done.
    destruct (colourbar_ticks_total lo hi) as (ticks & Hticks & _).
    unfold lift at 1. rewrite Hticks.
    rewrite (bind_run_Ok _ _ w ticks w) by done.
    by rewrite (bind_run_Raise _ _ _ _ _ Hget). }
  split; [|split; [|done]].
  - unfold heatmap_seaborn. by rewrite (bind_run_Raise _ _ _ _ _ Hget).
  - destruct (frames w !! dfr a) as [f|] eqn:Hf.
    + destruct (effective_vmin a f) as [lo|e] eqn:Hlo.
      * destruct (effective_vmax a f) as [hi|e] eqn:Hhi.
        -- exists ValueError. by eapply Hmpl.
        -- exists e. unfold heatmap_mpl.
           rewrite (bind_run_Ok _ _ _ _ _ (read_frame_run _ _ _ Hf)).
           unfold lift at 1. rewrite Hlo.
           rewrite (bind_run_Ok _ _ w lo w) by done.
           unfold lift at 1. rewrite Hhi.
           by rewrite (bind_run_Raise _ _ w e w).
      * exists e. unfold heatmap_mpl.
        rewrite (bind_run_Ok _ _ _ _ _ (read_frame_run _ _ _ Hf)).
        unfold lift at 1. rewrite Hlo.
        by rewrite (bind_run_Raise _ _ w e w).
    + exists AttributeError. unfold heatmap_mpl.
      apply bind_run_Raise. unfold read_frame. by rewrite Hf.
Qed.

(** X6. [heatmap_mpl] on a matrix without cells raises [ValueError]
    before anything is drawn or written, unless the caller gives both
    bounds of the colour scale. *)
Theorem empty_matrix_bounds (a : Args) (w : World) (f : DataFrame) :
  frames w !! dfr a = Some f →
  concat (df_values f) = [] →
  vmin a = None ∨ vmax a = None →
  heatmap_mpl a w = (Raise ValueError, w).
Proof.
  intros Hf Hempty Hbound. unfold heatmap_mpl.
  rewrite (bind_run_Ok _ _ _ _ _ (read_frame_run _ _ _ Hf)).
  destruct (vmin a) as [lo|] eqn:Hlo.
  - destruct Hbound as [|Hhi]; [done|].
    assert (effective_vmin a f = Ok lo) as -> by (unfold effective_vmin; by rewrite Hlo).
    rewrite (bind_run_Ok _ _ w lo w) by done.
    assert (effective_vmax a f = Raise ValueError) as ->.
    { unfold effective_vmax, Frame.values_max. by rewrite Hhi, Hempty. }
    by rewrite (bind_run_Raise _ _ w ValueError w).
  - assert (effective_vmin a f = Raise ValueError) as ->.
    { unfold effective_vmin, Frame.values_min. by rewrite Hlo, Hempty. }
    by rewrite (bind_run_Raise _ _ w ValueError w).
Qed.

End Exceptions.

Lemma unknown_colour_map_witness :
  @heatmap_seaborn Demo.libs (Demo2.cmap_args "jet") Demo.world =
    (Raise ValueError, Demo.world) ∧
  @heatmap_mpl Demo.libs (Demo2.cmap_args "jet") Demo.world =
    (Raise ValueError, Demo.world).
Proof.
  destruct (@unknown_colour_map Demo.libs (Demo2.cmap_args "jet") Demo.world
              "jet" eq_refl) as (Hs & _ & Hm).
  { by vm_compute. }
  split; [exact Hs|].
  apply (Hm Demo.frame 0.7 1); reflexivity.
Defined.

Lemma empty_matrix_bounds_witness :
  @heatmap_mpl Demo.libs (Demo2.plain_args 0%nat) Demo2.empty_world =
    (Raise ValueError, Demo2.empty_world).
Proof.
  apply (@empty_matrix_bounds Demo.libs (Demo2.plain_args 0%nat) Demo2.empty_world
           Demo2.empty_frame); [reflexivity|reflexivity|by left].
Defined.

(** ** Writing the figure *)

Lemma dict_setitem_saved r k v : stable (unchanged saved) (dict_setitem r k v).
Proof. intros w. unfold dict_setitem. by destruct (dicts w !! r). Qed.

Lemma set_context_saved ctx s : stable (unchanged saved) (set_context ctx s).
Proof. by intros w. Qed.

Lemma saved_after_unchanged out w w' :
  saved w' = saved w → saved_after out w' = saved_after out w.
Proof. intros Hs. unfold saved_after. by rewrite Hs. Qed.

Lemma saves_bind out {A B} (m : M A) (k : A → M B) :
  stable (unchanged saved) m →
  (∀ a, saves_at_end out (k a)) →
  saves_at_end out (m ≫= k).
Proof.
  intros Hm Hk w r w' Hrun. unfold mbind, M_bind in Hrun.
  specialize (Hm w). destruct (m w) as [[a|e] w1]; simpl in Hm.
  - rewrite (Hk a w1 r w' Hrun). destruct r; [|done].
    by apply saved_after_unchanged.
  - by injection Hrun as <- <-.
Qed.

Lemma saves_final out {A} (x : A) :
  saves_at_end out
    (from_option savefig (mret ()) (str_truthy out) ≫= λ _, mret x).
Proof.
  intros w r w' Hrun.
  rewrite (bind_run_Ok _ _ _ _ _ (savefig_opt_run out w)) in Hrun.
  by injection Hrun as <- <-.
Qed.

Section Saving.
Context `{ThirdParty}.

Lemma heatmap_seaborn_saves a :
  saves_at_end (outfilename a) (heatmap_seaborn a).
Proof.
  unfold heatmap_seaborn.
  apply saves_bind; [stable_auto|intros cm].
  apply saves_bind; [stable_auto|intros f].
  apply saves_bind.
  { unfold seaborn_font_scale. destruct (Qeq_bool _ _); stable_auto.
    apply set_context_saved. }
  intros _.
  apply saves_bind; [apply seaborn_class_colours_stable, _|intros col_cb].
  apply saves_bind; [apply seaborn_labels_stable, _|intros newlabels].
  apply saves_bind; [stable_auto|intros grid].
  apply saves_final.
Qed.

Lemma heatmap_mpl_saves a : saves_at_end (outfilename a) (heatmap_mpl a).
Proof.
  unfold heatmap_mpl.
  do 8 (apply saves_bind; [stable_auto|intros ?]).
  apply saves_bind.
  { apply mpl_class_strips_stable; [apply _|]. intros r name _.
    apply extend_classes_unchanged, dict_setitem_saved. }
  intros strips.
  apply saves_bind; [apply mpl_ticklabels_stable, _|intros tl].
  apply saves_final.
Qed.

(** X7. Either renderer writes the figure to [outfilename] exactly when
    it returns and the name is neither [None] nor empty; a call that
    raises has written no file. *)
Theorem figure_written (a : Args) (w : World) :
  (∀ fig w', heatmap_seaborn a w = (Ok fig, w') →
     saved w' = saved_after (outfilename a) w) ∧
  (∀ fig w', heatmap_mpl a w = (Ok fig, w') →
     saved w' = saved_after (outfilename a) w) ∧
  (∀ e w', heatmap_seaborn a w = (Raise e, w') → saved w' = saved w) ∧
  (∀ e w', heatmap_mpl a w = (Raise e, w') → saved w' = saved w) ∧
  (outfilename a = None ∨ outfilename a = Some ""%string →
     saved_after (outfilename a) w = saved w) ∧
  (∀ path, outfilename a = Some path → path ≠ ""%string →
     saved_after (outfilename a) w = path :: saved w).
Proof.
  split_and!.
  - intros fig w' Hrun. apply (heatmap_seaborn_saves a w _ _ Hrun).
  - intros fig w' Hrun. apply (heatmap_mpl_saves a w _ _ Hrun).
  - intros e w' Hrun. apply (heatmap_seaborn_saves a w _ _ Hrun).
  - intros e w' Hrun. apply (heatmap_mpl_saves a w _ _ Hrun).
  - unfold saved_after. by intros [->| ->].
  - intros path -> Hne. unfold saved_after. by destruct path.
Qed.

End Saving.

Lemma figure_written_witness :
  ∃ fig w',
    @heatmap_mpl Demo.libs Demo.args Demo.world = (Ok fig, w') ∧
    saved w' = ["out.png"] ∧
    saved (@heatmap_mpl Demo.libs (Demo2.cmap_args "jet") Demo.world).2 = [].
Proof.
  destruct (@figure_written Demo.libs Demo.args Demo.world)
    as (_ & Hok & _ & _ & _ & Hpath).
  destruct (@figure_written Demo.libs (Demo2.cmap_args "jet") Demo.world)
    as (_ & _ & _ & Hraise & _).
  destruct (@heatmap_mpl Demo.libs Demo.args Demo.world)
    as [[fig|e] w'] eqn:Em; [|by vm_compute in Em].
  exists fig, w'. split; [reflexivity|]. split.
  - rewrite (Hok fig w' eq_refl). by apply (Hpath "out.png").
  - destruct (@heatmap_mpl Demo.libs (Demo2.cmap_args "jet") Demo.world)
      as [[fig2|e] w2] eqn:Em2; [by vm_compute in Em2|].
    apply (Hraise e w2 eq_refl).
Defined.

(** ** The class strips, forward *)

Section StripsForward.
Context `{ThirdParty}.

Lemma for_append_strip_cell_run c classdict names w d :
  dicts w !! c = Some d →
  for_append names (strip_cell c classdict) w =
  (of_option KeyError (mapM (strip_value d classdict) names), w).
Proof.
  intros Hd. induction names as [|n names IH]; [done|].
  cbn [for_append]. unfold mbind at 1, M_bind at 1.
  rewrite (strip_cell_run _ _ _ _ _ Hd).
  change (mapM (strip_value d classdict) (n :: names))
    with (y ← strip_value d classdict n;
          k ← mapM (strip_value d classdict) names; mret (y :: k)).
  destruct (strip_value d classdict n) as [v|]; simpl; [|done].
  unfold mbind at 1, M_bind at 1. rewrite IH.
  by destruct (mapM (strip_value d classdict) names).
Qed.

Lemma for_extend_classes_world c names w d :
  dicts w !! c = Some d →
  for_ names (extend_classes c) w =
  (Ok (), with_dicts w (<[c := extended d names]> (dicts w))).
Proof.
  intros Hd.
  destruct (for_extend_classes_run c names w d Hd)
    as (w' & -> & Hd' & Hf & Hr & Hc & Hs).
  f_equal. by apply world_eq.
Qed.

(** Every name the loop has seen has a class, and that class a number. *)
Lemma strip_value_covered d names n :
  n ∈ names →
  ∃ cls idx,
    PyDict.get (extended d names) n = Some cls ∧
    PyDict.get (class_dict (extended d names)) cls = Some idx ∧
    PyDict.values (extended d names) !! idx = Some cls ∧
    strip_value (extended d names) (class_dict (extended d names)) n = Some idx.
Proof.
  intros Hn. destruct (extended_covers d names n Hn) as [cls Hcls].
  assert (cls ∈ PyDict.values (extended d names)) as Hin.
  { apply PyDictFacts.get_Some_elem in Hcls. unfold PyDict.values.
    apply list_elem_of_fmap. by exists (n, cls). }
  destruct (class_dict_is_Some _ _ Hin) as [idx Hidx].
  exists cls, idx. split; [done|]. split; [done|].
  split; [by apply class_dict_get|].
  unfold strip_value. rewrite Hcls. simpl. by rewrite Hidx.
Qed.

(** The whole of lines 217-256 for a class map that is there. *)
Lemma mpl_class_strips_run f rl cl c w d colnames rownames :
  dicts w !! c = Some d →
  Frame.index_at f cl = Ok colnames →
  Frame.index_at f rl = Ok rownames →
  let d' := extended d colnames in
  let w1 := with_dicts w (<[c := d']> (dicts w)) in
  mpl_class_strips f rl cl (Some c) w =
  (match mapM (strip_value d' (class_dict d')) colnames with
   | None => Raise KeyError
   | Some col_cb =>
       match mapM (strip_value d' (class_dict d')) rownames with
       | None => Raise KeyError
       | Some row_cb =>
           if decide (MPL_CBAR ∈ cmap_registry w)
           then Ok (Some col_cb, Some row_cb)
           else Raise ValueError
       end
   end, w1).
Proof.
  intros Hd Hcn Hrn d' w1. unfold mpl_class_strips.
  rewrite Hcn, Hrn.
  rewrite (bind_run_Ok _ _ w colnames w) by done.
  rewrite (bind_run_Ok _ _ _ _ _ (for_extend_classes_world c colnames w d Hd)).
  fold d'. fold w1.
  assert (dicts w1 !! c = Some d') as Hd1 by apply lookup_insert_eq.
  rewrite (bind_run_Ok _ _ _ _ _ (read_dict_run _ _ _ Hd1)).
  rewrite (bind_run_Ok _ _ w1 colnames w1) by done.
  unfold mbind at 1, M_bind at 1.
  rewrite (for_append_strip_cell_run _ _ _ _ _ Hd1).
  destruct (mapM (strip_value d' (class_dict d')) colnames) as [col_cb|];
    simpl; [|done].
  rewrite (bind_run_Ok _ _ w1 rownames w1) by done.
  unfold mbind at 1, M_bind at 1.
  rewrite (for_append_strip_cell_run _ _ _ _ _ Hd1).
  destruct (mapM (strip_value d' (class_dict d')) rownames) as [row_cb|];
    simpl; [|done].
  unfold mbind, M_bind, get_cmap, mret, M_ret. simpl.
  by destruct (decide (MPL_CBAR ∈ cmap_registry w)).
Qed.

(** Names the loop has seen all have a number, found by the first
    lookup of the [try] block. *)
Lemma strip_values_covered d colnames names :
  (∀ n, n ∈ names → n ∈ colnames) →
  let d' := extended d colnames in
  ∃ cb,
    mapM (λ n, cls ← PyDict.get d' n; PyDict.get (class_dict d') cls) names
      = Some cb ∧
    mapM (strip_value d' (class_dict d')) names = Some cb.
Proof.
  intros Hnames d'. induction names as [|n names IH].
  - by exists [].
  - destruct IH as (cb & Hcb1 & Hcb2).
    { intros m Hm. apply Hnames. apply elem_of_cons. by right. }
    destruct (strip_value_covered d colnames n) as (cls & idx & Hc & Hi & _ & Hv).
    { apply Hnames. apply elem_of_cons. by left. }
    exists (idx :: cb). fold d' in Hc, Hi, Hv.
    change (mapM ?g (n :: names))
      with (y ← g n; k ← mapM g names; mret (y :: k)).
    rewrite Hcb1, Hcb2, Hv, Hc. simpl. by rewrite Hi.
Qed.

Lemma mpl_class_strips_covered f rl cl c w d colnames rownames :
  dicts w !! c = Some d →
  Frame.index_at f cl = Ok colnames →
  Frame.index_at f rl = Ok rownames →
  (∀ n, n ∈ rownames → n ∈ colnames) →
  let d' := extended d colnames in
  let w1 := with_dicts w (<[c := d']> (dicts w)) in
  ∃ col_cb row_cb,
    mapM (λ n, cls ← PyDict.get d' n; PyDict.get (class_dict d') cls) colnames
      = Some col_cb ∧
    mapM (λ n, cls ← PyDict.get d' n; PyDict.get (class_dict d') cls) rownames
      = Some row_cb ∧
    mpl_class_strips f rl cl (Some c) w =
      (if decide (MPL_CBAR ∈ cmap_registry w)
       then Ok (Some col_cb, Some row_cb) else Raise ValueError, w1).
Proof.
  intros Hd Hcn Hrn Hsub d' w1.
  destruct (strip_values_covered d colnames colnames ltac:(done))
    as (col_cb & Hc1 & Hc2).
  destruct (strip_values_covered d colnames rownames Hsub)
    as (row_cb & Hr1 & Hr2).
  exists col_cb, row_cb. split; [done|]. split; [done|].
  pose proof (mpl_class_strips_run f rl cl c w d colnames rownames Hd Hcn Hrn)
    as Hrun.
  cbv zeta in Hrun. fold d' in Hrun, Hc2, Hr2. fold w1 in Hrun.
  rewrite Hc2, Hr2 in Hrun. rewrite Hrun.
  by destruct (decide (MPL_CBAR ∈ cmap_registry w)).
Qed.

(** X8. With a class map given, the class strips of [heatmap_mpl] never
    raise [KeyError] when every row-leaf label is also a column-leaf
    label, as with the leaves of two dendrograms over the same rows: each
    label then has a class of its own and the [except] branch is never
    taken. The strips are drawn if the colour map of the strips is
    registered; if it is not, [ValueError] is raised with the class map
    already extended. *)
Theorem class_strips_no_key_error
    (f : DataFrame) (rl cl : list nat) (c : loc) (w : World)
    (d : PyDict.t string) (colnames rownames : list string) :
  dicts w !! c = Some d →
  Frame.index_at f cl = Ok colnames →
  Frame.index_at f rl = Ok rownames →
  (∀ n, n ∈ rownames → n ∈ colnames) →
  let d' := extended d colnames in
  let w1 := with_dicts w (<[c := d']> (dicts w)) in
  ∃ col_cb row_cb,
    mapM (λ n, cls ← PyDict.get d' n; PyDict.get (class_dict d') cls) colnames
      = Some col_cb ∧
    mapM (λ n, cls ← PyDict.get d' n; PyDict.get (class_dict d') cls) rownames
      = Some row_cb ∧
    (MPL_CBAR ∈ cmap_registry w →
     mpl_class_strips f rl cl (Some c) w =
       (Ok (Some col_cb, Some row_cb), w1)) ∧
    (MPL_CBAR ∉ cmap_registry w →
     mpl_class_strips f rl cl (Some c) w = (Raise ValueError, w1)).
Proof.
  intros Hd Hcn Hrn Hsub d' w1.
  destruct (mpl_class_strips_covered f rl cl c w d colnames rownames
              Hd Hcn Hrn Hsub) as (col_cb & row_cb & Hc & Hr & Hrun).
  exists col_cb, row_cb. split; [done|]. split; [done|].
  fold d' in Hrun. fold w1 in Hrun. split.
  - intros Hreg. by rewrite decide_True in Hrun.
  - intros Hreg. by rewrite decide_False in Hrun.
Qed.

End StripsForward.

Lemma class_strips_no_key_error_witness :
  ∃ col_cb row_cb,
    @mpl_class_strips Demo.libs Demo.frame [2; 1; 0]%nat [2; 1; 0]%nat
      (Some 2%nat) Demo.world =
    (Ok (Some col_cb, Some row_cb),
     with_dicts Demo.world
       (<[2%nat := [("b", "x"); ("a", "y"); ("c", "c")]%string]>
          (dicts Demo.world))).
Proof.
  destruct (@class_strips_no_key_error Demo.libs Demo.frame
              [2; 1; 0]%nat [2; 1; 0]%nat 2%nat Demo.world
              [("b", "x"); ("a", "y")]%string
              ["c"; "b"; "a"]%string ["c"; "b"; "a"]%string
              eq_refl eq_refl eq_refl (λ n Hn, Hn))
    as (col_cb & row_cb & _ & _ & Hok & _).
  exists col_cb, row_cb. apply Hok. vm_compute. set_solver.
Defined.

(** ** What the steps of a renderer read *)

Lemma run_transfer {A} (m : M A) w w' x :
  stable same m → (m w').1 = (m w).1 →
  m w = (Ok x, w) → m w' = (Ok x, w').
Proof.
  intros Hsame Hfst Hrun. specialize (Hsame w'). unfold same in Hsame.
  rewrite Hrun in Hfst. simpl in Hfst.
  destruct (m w') as [r w2]. simpl in *. by subst.
Qed.

Section Reads.
Context `{ThirdParty}.

Lemma seaborn_class_colours_dicts f c w w' :
  dicts w' = dicts w →
  (seaborn_class_colours f c w').1 = (seaborn_class_colours f c w).1.
Proof.
  intros Hd. unfold seaborn_class_colours. destruct c as [c|]; [|done].
  unfold mbind, M_bind, read_dict, lift, mret, M_ret. rewrite Hd.
  destruct (dicts w !! c) as [cd|]; simpl; [|done].
  by destruct (level_palette _ _ _).
Qed.

Lemma seaborn_labels_dicts f l w w' :
  dicts w' = dicts w →
  (seaborn_labels f l w').1 = (seaborn_labels f l w).1.
Proof.
  intros Hd. unfold seaborn_labels. destruct l as [l|]; [|done].
  unfold mbind, M_bind, read_dict, mret, M_ret. rewrite Hd.
  by destruct (dicts w !! l).
Qed.

Lemma mpl_ticklabels_dicts f rl cl l w w' :
  dicts w' = dicts w →
  (mpl_ticklabels f rl cl l w').1 = (mpl_ticklabels f rl cl l w).1.
Proof.
  intros Hd. unfold mpl_ticklabels.
  unfold mbind, M_bind, lift, read_dict, mret, M_ret.
  destruct (Frame.index_at f rl); [|done].
  destruct (Frame.index_at f cl); [|done].
  destruct l as [l|]; [|done]. rewrite Hd.
  destruct (dicts w !! l) as [ld|]; simpl; [|done].
  by destruct (PyDict.truthy ld).
Qed.

Lemma mpl_class_strips_frames f rl cl c :
  stable (unchanged frames) (mpl_class_strips f rl cl c).
Proof.
  apply mpl_class_strips_stable; [apply _|]. intros r name _.
  apply extend_classes_unchanged, dict_setitem_frames.
Qed.

Lemma mpl_class_strips_registry f rl cl c :
  stable (unchanged cmap_registry) (mpl_class_strips f rl cl c).
Proof.
  apply mpl_class_strips_stable; [apply _|]. intros r name _.
  apply extend_classes_unchanged, dict_setitem_registry.
Qed.

Lemma mpl_class_strips_context f rl cl c :
  stable (unchanged plotting_context) (mpl_class_strips f rl cl c).
Proof.
  apply mpl_class_strips_stable; [apply _|]. intros r name _.
  apply extend_classes_unchanged, dict_setitem_context.
Qed.

Lemma mpl_class_strips_saved f rl cl c :
  stable (unchanged saved) (mpl_class_strips f rl cl c).
Proof.
  apply mpl_class_strips_stable; [apply _|]. intros r name _.
  apply extend_classes_unchanged, dict_setitem_saved.
Qed.

(** A class map that let the strips through was there to begin with. *)
Lemma mpl_class_strips_dict f rl cl c w strips w1 :
  mpl_class_strips f rl cl (Some c) w = (Ok strips, w1) →
  is_Some (dicts w !! c).
Proof.
  intros Hrun. destruct (dicts w !! c) as [d|] eqn:Hd; [by eexists|exfalso].
  unfold mpl_class_strips in Hrun.
  inv_bind Hrun colnames w0 Hcol. apply lift_Ok in Hcol as [Hcol ->].
  inv_bind Hrun u w2 Hloop.
  pose proof (for_extend_classes_dangling c colnames w Hd) as Hw2.
  rewrite Hloop in Hw2. simpl in Hw2. subst w2.
  inv_bind Hrun cd w2 Hcd. apply read_dict_Ok in Hcd as [Hcd _].
  congruence.
Qed.

(** Run again in the world they left, the class strips come out the
    same and leave that world as it is. *)
Lemma mpl_class_strips_again f rl cl c w strips w1 w2 :
  mpl_class_strips f rl cl c w = (Ok strips, w1) →
  dicts w2 = dicts w1 → cmap_registry w2 = cmap_registry w →
  mpl_class_strips f rl cl c w2 = (Ok strips, w2).
Proof.
  intros Hrun Hd Hreg. destruct c as [c|].
  - destruct (mpl_class_strips_dict _ _ _ _ _ _ _ Hrun) as [d Hdw].
    destruct (mpl_class_strips_Ok _ _ _ _ _ _ _ _ Hrun Hdw)
      as (colnames & rownames & col_cb & row_cb & Hcn & Hrn & Hd1 & _).
    pose proof (mpl_class_strips_run f rl cl c w d colnames rownames Hdw Hcn Hrn)
      as Hfirst.
    cbv zeta in Hfirst. rewrite Hrun in Hfirst.
    injection Hfirst as Hval Hw1.
    assert (dicts w2 !! c = Some (extended d colnames)) as Hd2.
    { rewrite Hd, Hd1. apply lookup_insert_eq. }
    pose proof (mpl_class_strips_run f rl cl c w2 _ colnames rownames Hd2 Hcn Hrn)
      as Hsecond.
    cbv zeta in Hsecond.
    assert (extended (extended d colnames) colnames = extended d colnames)
      as Hidem.
    { apply extended_id. intros n Hn. by apply extended_covers. }
    rewrite Hidem, Hreg, <- Hval in Hsecond. rewrite Hsecond. f_equal.
    apply world_eq; simpl; try done. by apply insert_id.
  - unfold mpl_class_strips in *. by apply ret_Ok in Hrun as [-> ->].
Qed.

End Reads.

(** ** Whole runs of [heatmap_mpl] *)

Section MplRuns.
Context `{ThirdParty}.

Lemma heatmap_mpl_run a w f lo hi ticks cm cl rl heat strips w1 tks :
  frames w !! dfr a = Some f →
  effective_vmin a f = Ok lo →
  effective_vmax a f = Ok hi →
  colourbar_ticks lo hi = Ok ticks →
  get_cmap (cmap a) w = (Ok cm, w) →
  cluster_leaves (df_values (Frame.transpose f)) "top" = Ok cl →
  cluster_leaves (df_values f) "left" = Ok rl →
  Frame.ix f rl cl = Ok heat →
  mpl_class_strips f rl cl (classes a) w = (Ok strips, w1) →
  mpl_ticklabels f rl cl (labels a) w1 = (Ok tks, w1) →
  heatmap_mpl a w =
  (Ok {| mf_figsize :=
           (mpl_figsize (Frame.shape0 f), mpl_figsize (Frame.shape0 f));
         mf_heatmap := heat;
         mf_cmap := cm;
         mf_vmin := lo; mf_vmax := hi;
         mf_col_cb := strips.1; mf_row_cb := strips.2;
         mf_xticklabels := tks.2;
         mf_yticklabels := tks.1;
         mf_cbticks := ticks;
         mf_cbar_label := str_truthy (title a) |},
   with_saved w1 (saved_after (outfilename a) w1)).
Proof.
  intros Hf Hlo Hhi Hticks Hcm Hcl Hrl Hheat Hstrips Hlabels.
  unfold heatmap_mpl.
  rewrite (bind_run_Ok _ _ _ _ _ (read_frame_run _ _ _ Hf)).
  rewrite (bind_run_Ok _ _ w lo w) by (unfold lift; by rewrite Hlo).
  rewrite (bind_run_Ok _ _ w hi w) by (unfold lift; by rewrite Hhi).
  rewrite (bind_run_Ok _ _ w ticks w) by (unfold lift; by rewrite Hticks).
  rewrite (bind_run_Ok _ _ _ _ _ Hcm).
  rewrite (bind_run_Ok _ _ w cl w) by (unfold lift; by rewrite Hcl).
  rewrite (bind_run_Ok _ _ w rl w) by (unfold lift; by rewrite Hrl).
  rewrite (bind_run_Ok _ _ w heat w) by (unfold lift; by rewrite Hheat).
  rewrite (bind_run_Ok _ _ _ _ _ Hstrips).
  rewrite (bind_run_Ok _ _ _ _ _ Hlabels).
  by rewrite (bind_run_Ok _ _ _ _ _ (savefig_opt_run (outfilename a) w1)).
Qed.

Lemma heatmap_mpl_Ok_full a w fig w' :
  heatmap_mpl a w = (Ok fig, w') →
  ∃ f lo hi ticks cm cl rl heat strips w1 tks,
    frames w !! dfr a = Some f ∧
    effective_vmin a f = Ok lo ∧
    effective_vmax a f = Ok hi ∧
    colourbar_ticks lo hi = Ok ticks ∧
    get_cmap (cmap a) w = (Ok cm, w) ∧
    cluster_leaves (df_values (Frame.transpose f)) "top" = Ok cl ∧
    cluster_leaves (df_values f) "left" = Ok rl ∧
    Frame.ix f rl cl = Ok heat ∧
    mpl_class_strips f rl cl (classes a) w = (Ok strips, w1) ∧
    mpl_ticklabels f rl cl (labels a) w1 = (Ok tks, w1) ∧
    fig = {| mf_figsize :=
               (mpl_figsize (Frame.shape0 f), mpl_figsize (Frame.shape0 f));
             mf_heatmap := heat;
             mf_cmap := cm;
             mf_vmin := lo; mf_vmax := hi;
             mf_col_cb := strips.1; mf_row_cb := strips.2;
             mf_xticklabels := tks.2;
             mf_yticklabels := tks.1;
             mf_cbticks := ticks;
             mf_cbar_label := str_truthy (title a) |} ∧
    w' = with_saved w1 (saved_after (outfilename a) w1).
Proof.
  unfold heatmap_mpl. intros Hrun.
  inv_bind Hrun f w0 Hf. apply read_frame_Ok in Hf as [Hf ->].
  inv_bind Hrun lo w0 Hlo. apply lift_Ok in Hlo as [Hlo ->].
  inv_bind Hrun hi w0 Hhi. apply lift_Ok in Hhi as [Hhi ->].
  inv_bind Hrun ticks w0 Hticks. apply lift_Ok in Hticks as [Hticks ->].
  inv_bind Hrun cm w0 Hcmap.
  pose proof (stable_run same _ _ _ _ (get_cmap_same (cmap a)) Hcmap) as ->.
  inv_bind Hrun cl w0 Hcol. apply lift_Ok in Hcol as [Hcol ->].
  inv_bind Hrun rl w0 Hrow. apply lift_Ok in Hrow as [Hrow ->].
  inv_bind Hrun heat w0 Hheat. apply lift_Ok in Hheat as [Hheat ->].
  inv_bind Hrun strips w1 Hstrips.
  inv_bind Hrun tks w2 Hlabels.
  pose proof (stable_run same _ _ _ _
                (mpl_ticklabels_stable same f rl cl (labels a)) Hlabels) as ->.
  rewrite (bind_run_Ok _ _ _ _ _ (savefig_opt_run (outfilename a) w1)) in Hrun.
  apply ret_Ok in Hrun as [-> ->].
  by exists f, lo, hi, ticks, cm, cl, rl, heat, strips, w1, tks.
Qed.

(** X9. Rendering again what [heatmap_mpl] has just rendered succeeds
    and gives the same figure: the class map the first call extended is
    complete for the second, which changes no dictionary, frame, colour
    map or plotting context and writes the same file once more. *)
Theorem heatmap_mpl_again (a : Args) (w : World) (fig : MplFigure) (w1 : World) :
  heatmap_mpl a w = (Ok fig, w1) →
  ∃ w2,
    heatmap_mpl a w1 = (Ok fig, w2) ∧
    frames w2 = frames w1 ∧
    dicts w2 = dicts w1 ∧
    cmap_registry w2 = cmap_registry w1 ∧
    plotting_context w2 = plotting_context w1 ∧
    saved w2 = saved_after (outfilename a) w1.
Proof.
  intros Hrun.
  apply heatmap_mpl_Ok_full in Hrun
    as (f & lo & hi & ticks & cm & cl & rl & heat & strips & wS & tks
        & Hf & Hlo & Hhi & Hticks & Hcm & Hcl & Hrl & Hheat & Hstrips & Hlabels
        & -> & ->).
  pose proof (stable_run _ _ _ _ _ (mpl_class_strips_frames f rl cl (classes a))
                Hstrips) as Hfr.
  pose proof (stable_run _ _ _ _ _ (mpl_class_strips_registry f rl cl (classes a))
                Hstrips) as Hreg.
  unfold unchanged in Hfr, Hreg.
  set (w1 := with_saved wS (saved_after (outfilename a) wS)).
  exists (with_saved w1 (saved_after (outfilename a) w1)).
  split; [|done].
  apply (heatmap_mpl_run a w1 f lo hi ticks cm cl rl heat strips w1 tks);
    try done.
  - change (frames w1) with (frames wS). by rewrite Hfr.
  - rewrite get_cmap_run, (get_cmap_registry (cmap a) w w1) by done.
    by rewrite Hcm.
  - by apply (mpl_class_strips_again f rl cl (classes a) w strips wS w1).
  - apply (run_transfer _ wS w1); [|by apply mpl_ticklabels_dicts|done].
    apply mpl_ticklabels_stable, _.
Qed.

End MplRuns.

Lemma heatmap_mpl_again_witness :
  ∃ fig w1 w2,
    @heatmap_mpl Demo.libs Demo.args Demo.world = (Ok fig, w1) ∧
    @heatmap_mpl Demo.libs Demo.args w1 = (Ok fig, w2) ∧
    dicts w2 = dicts w1 ∧
    saved w2 = saved_after (outfilename Demo.args) w1.
Proof.
  destruct (@heatmap_mpl Demo.libs Demo.args Demo.world)
    as [[fig|e] w1] eqn:Em; [|by vm_compute in Em].
  destruct (@heatmap_mpl_again Demo.libs Demo.args Demo.world fig w1 Em)
    as (w2 & Hrun & _ & Hd & _ & _ & Hs).
  exists fig, w1, w2. split; [reflexivity|]. split; [exact Hrun|].
  split; [exact Hd|exact Hs].
Defined.

(** ** When [heatmap_mpl] returns *)




Section MplSuccess.
Context `{ThirdParty}.



End MplSuccess.


(** ** When [heatmap_seaborn] returns *)

Section SeabornSuccess.
Context `{ThirdParty}.






(** ** The font scale stays *)

(** X12. The font scale that [heatmap_seaborn] sets for a matrix of 110
    rows or more is below one and stays in the plotting context: later
    calls of [heatmap_mpl], and of [heatmap_seaborn] on a smaller matrix,
    leave it where it is, whether they return or raise. *)
Theorem font_scale_persists (a : Args) (w : World) (f : DataFrame)
    (fig : SeabornFigure) (w1 : World) :
  frames w !! dfr a = Some f →
  (110 ≤ Frame.shape0 f)%nat →
  heatmap_seaborn a w = (Ok fig, w1) →
  let scale := maxfigsize / calcfigsize (Frame.shape0 f) in
  plotting_context w1 = ("notebook"%string, scale) ∧
  scale < 1 ∧
  (∀ b, plotting_context (heatmap_mpl b w1).2 = ("notebook"%string, scale)) ∧
  (∀ b g,
     frames w1 !! dfr b = Some g → (Frame.shape0 g < 110)%nat →
     plotting_context (heatmap_seaborn b w1).2 = ("notebook"%string, scale)).
Proof.
  intros Hf Hbig Hrun scale.
  assert (plotting_context w1 = ("notebook"%string, scale)) as Hctx.
  { apply heatmap_seaborn_Ok in Hrun
      as (f' & w0 & col_cb & newlabels & Hf' & Hscale & _ & _ & Hctx & _).
    assert (f' = f) as -> by congruence.
    rewrite seaborn_font_scale_run, decide_True in Hscale by done.
    injection Hscale as <-. exact Hctx. }
  split; [exact Hctx|]. split.
  - unfold scale, maxfigsize, calcfigsize.
    assert (110 <= inject_Z (Z.of_nat (Frame.shape0 f))) as Hq.
    { change 110 with (inject_Z 110). rewrite <- Zle_Qle. lia. }
    apply Qlt_shift_div_r; lra.
  - split.
    + intros b. rewrite <- Hctx. apply heatmap_mpl_context.
    + intros b g Hg Hsmall.
      destruct (heatmap_seaborn_context b w1) as [->|(g' & Hg' & Hbig' & _)];
        [done|].
      assert (g' = g) as -> by congruence. lia.
Qed.

End SeabornSuccess.


Lemma font_scale_persists_witness :
  ∃ fig w1,
    @heatmap_seaborn Demo.libs (Demo2.plain_args 1%nat) Demo2.two_frames = (Ok fig, w1) ∧
    plotting_context
      (@heatmap_seaborn Demo.libs (Demo2.plain_args 0%nat) w1).2 =
      ("notebook"%string, maxfigsize / calcfigsize 110).
Proof.
  destruct (@heatmap_seaborn Demo.libs (Demo2.plain_args 1%nat) Demo2.two_frames)
    as [[fig|e] w1] eqn:Em; [|by vm_compute in Em].
  assert (frames w1 = frames Demo2.two_frames) as Hfr.
  { apply (stable_run (unchanged frames) _ _ _ _
             (@heatmap_seaborn_frames Demo.libs (Demo2.plain_args 1%nat)) Em). }
  destruct (@font_scale_persists Demo.libs (Demo2.plain_args 1%nat) Demo2.two_frames
              (Demo.square_frame 110) fig w1)
    as (_ & _ & _ & Hlater).
  - reflexivity.
  - vm_compute. lia.
  - exact Em.
  - exists fig, w1. split; [reflexivity|].
    change (Frame.shape0 (Demo.square_frame 110)) with 110%nat in Hlater.
    apply (Hlater (Demo2.plain_args 0%nat) Demo.frame).
    + rewrite Hfr. reflexivity.
    + vm_compute. lia.
Defined.
